(** * gethscan: the cross-chain swap scanner (package [scanner], with the
      predicates of package [params] it relies on)

    A shallow embedding of [scanner/scanswap.go]: the transaction
    classifier and verifier, the registration dispatcher and the
    sync-height checkpoint, followed by the properties proved about them.

    Conventions.
    - A Go [[]byte], [common.Hash] or [common.Address] is a [list byte];
      a Go [string] is a [string].
    - A Go [error] is an [option error]; [None] is [nil].
    - A [uint64] is a [Z] reduced modulo [2^64] where the code does arithmetic.
    - A run-time panic (index out of range, nil pointer, failed type
      assertion) is the outcome [Panic].
    - Calls that leave the process (chain RPC, swap server, document store,
      retry ring) are answered by an environment [Env] and recorded, in
      order, in the events of the run. *)

From Stdlib Require Import List String Ascii Bool Arith ZArith Lia.
From Stdlib.Strings Require Import Byte.
From Stdlib Require Import DecimalString.
Import ListNotations.

Local Open Scope string_scope.
Local Open Scope list_scope.

(* ================================================================= *)
(** ** Go standard library: [strings], [bytes], [fmt] *)

Module strings.

Definition isUpper (c : ascii) : bool :=
  (65 <=? nat_of_ascii c)%nat && (nat_of_ascii c <=? 90)%nat.

Definition lowerChar (c : ascii) : ascii :=
  if isUpper c then ascii_of_nat (nat_of_ascii c + 32)%nat else c.

(** [strings.ToLower], on ASCII letters.  The strings it is applied to in
    this program are the [TxType] of a rule, which the configuration check
    restricts to seven lower-case ASCII constants. *)
Fixpoint ToLower (s : string) : string :=
  match s with
  | EmptyString => EmptyString
  | String c s' => String (lowerChar c) (ToLower s')
  end.

(** One step of the comparison loop of [strings.EqualFold]: equal bytes, or
    the same ASCII letter in the two cases. *)
Definition foldEq (a b : ascii) : bool :=
  Ascii.eqb a b || Ascii.eqb (lowerChar a) (lowerChar b).

(** [strings.EqualFold].  Every call in this program has the hexadecimal
    rendering of an address on one side; on such strings Unicode simple
    folding coincides with the ASCII folding used here. *)
Fixpoint EqualFold (s t : string) : bool :=
  match s, t with
  | EmptyString, EmptyString => true
  | String a s', String b t' => foldEq a b && EqualFold s' t'
  | _, _ => false
  end.

(** [strings.Contains]. *)
Fixpoint Contains (s substr : string) : bool :=
  if String.prefix substr s then true
  else match s with
       | EmptyString => false
       | String _ s' => Contains s' substr
       end.

End strings.

Module bytes.

(** [bytes.Equal]. *)
Fixpoint Equal (a b : list byte) : bool :=
  match a, b with
  | [], [] => true
  | x :: a', y :: b' => Byte.eqb x y && Equal a' b'
  | _, _ => false
  end.

End bytes.

Module fmt.

(** [fmt.Sprintf("%d", i)] for a non-negative [int]. *)
Definition Sprintf_d (i : nat) : string :=
  NilZero.string_of_uint (Nat.to_uint i).

End fmt.

(* ================================================================= *)
(** ** Package [common] of the chain client: hex and fixed-size byte arrays *)

Module common.

Definition HashLength : nat := 32.
Definition AddressLength : nat := 20.

Definition hexDigit (n : nat) : ascii :=
  match String.get n "0123456789abcdef" with
  | Some c => c
  | None => "0"%char
  end.

Definition byteHex (b : byte) : string :=
  let n := Byte.to_nat b in
  String (hexDigit (n / 16)%nat) (String (hexDigit (n mod 16)%nat) EmptyString).

Fixpoint bytesHex (bs : list byte) : string :=
  match bs with
  | [] => EmptyString
  | b :: bs' => byteHex b ++ bytesHex bs'
  end.

(** [Hash.Hex] and [Address.Hex]/[Address.String]: ["0x"] and two digits
    per byte.  The client library prints an address with the mixed-case
    checksum of EIP-55; the scanner passes every address string straight to
    [strings.EqualFold], which ignores the case of letters, so the
    lower-case digits are used. *)
Definition Hex (bs : list byte) : string := "0x" ++ bytesHex bs.

Definition hexVal (c : ascii) : option nat :=
  let n := nat_of_ascii c in
  (if (48 <=? n) && (n <=? 57) then Some (n - 48)
   else if (97 <=? n) && (n <=? 102) then Some (n - 87)
   else if (65 <=? n) && (n <=? 70) then Some (n - 55)
   else None)%nat.

Definition byteOfNat (n : nat) : byte :=
  match Byte.of_nat n with
  | Some b => b
  | None => x00
  end.

Fixpoint Hex2Bytes (s : string) : list byte :=
  match s with
  | String h (String l s') =>
      match hexVal h, hexVal l with
      | Some a, Some b => byteOfNat (16 * a + b)%nat :: Hex2Bytes s'
      | _, _ => []
      end
  | _ => []
  end.

Definition stripPrefix (s : string) : string :=
  match s with
  | String "0" (String "x" s') => s'
  | String "0" (String "X" s') => s'
  | _ => s
  end.

(** [common.FromHex]: optional ["0x"], an odd number of digits is
    completed by a leading zero. *)
Definition FromHex (s : string) : list byte :=
  let s' := stripPrefix s in
  if Nat.even (String.length s') then Hex2Bytes s'
  else Hex2Bytes (String "0" s').

(** Copy [b] right-aligned into an array of [n] bytes, keeping the last
    [n] bytes when [b] is longer ([SetBytes]). *)
Definition setBytes (n : nat) (b : list byte) : list byte :=
  let b' := skipn (List.length b - n)%nat b in
  repeat x00 (n - List.length b')%nat ++ b'.

Definition BytesToHash (b : list byte) : list byte := setBytes HashLength b.
Definition BytesToAddress (b : list byte) : list byte := setBytes AddressLength b.
Definition HexToHash (s : string) : list byte := BytesToHash (FromHex s).

Definition RightPadBytes (slice : list byte) (l : nat) : list byte :=
  if (l <=? List.length slice)%nat then slice
  else slice ++ repeat x00 (l - List.length slice)%nat.

(** [common.GetData]: the [size] bytes of [data] from [start], cut at the
    end of [data] and padded with zeros on the right. *)
Definition GetData (data : list byte) (start size : nat) : list byte :=
  let length := List.length data in
  let start := if (length <? start)%nat then length else start in
  let end_ := (start + size)%nat in
  let end_ := if (length <? end_)%nat then length else end_ in
  RightPadBytes (firstn (end_ - start)%nat (skipn start data)) size.

End common.

(* ================================================================= *)
(** ** Package [tokens] of the bridge library: the sentinel errors *)

Module tokens.

Inductive ErrKind : Type :=
| TxNotFound
| TxFuncHashMismatch
| TxWithWrongReceiver
| TxWithWrongInput
| DepositLogNotFound
| SwapoutLogNotFound.

Definition ErrKind_eqb (a b : ErrKind) : bool :=
  match a, b with
  | TxNotFound, TxNotFound
  | TxFuncHashMismatch, TxFuncHashMismatch
  | TxWithWrongReceiver, TxWithWrongReceiver
  | TxWithWrongInput, TxWithWrongInput
  | DepositLogNotFound, DepositLogNotFound
  | SwapoutLogNotFound, SwapoutLogNotFound => true
  | _, _ => false
  end.

(** A Go [error] value: its message ([err.Error()]) and the sentinel it
    is or wraps, if any ([errors.Is]). *)
Record error : Type := mkError {
  errIs : option ErrKind;
  Error : string
}.

Definition errors_New (msg : string) : error := mkError None msg.

Definition errors_Is (err : option error) (k : ErrKind) : bool :=
  match err with
  | Some e => match errIs e with
              | Some k' => ErrKind_eqb k' k
              | None => false
              end
  | None => false
  end.

Definition ErrTxNotFound := mkError (Some TxNotFound) "tx not found".
Definition ErrTxFuncHashMismatch := mkError (Some TxFuncHashMismatch) "tx func hash mismatch".
Definition ErrTxWithWrongReceiver := mkError (Some TxWithWrongReceiver) "tx with wrong receiver".
Definition ErrTxWithWrongInput := mkError (Some TxWithWrongInput) "tx with wrong input".
Definition ErrDepositLogNotFound := mkError (Some DepositLogNotFound) "deposit log not found or removed".
Definition ErrSwapoutLogNotFound := mkError (Some SwapoutLogNotFound) "swapout log not found or removed".

End tokens.

(* ================================================================= *)
(** ** Package [params]: the token rules *)

Module params.

Definition TxSwapin := "swapin".
Definition TxSwapout := "swapout".
Definition TxSwapout2 := "swapout2".
Definition TxRouterERC20Swap := "routerswap".
Definition TxRouterNFTSwap := "nftswap".
Definition TxRouterAnycallSwap := "anycallswap".
Definition TxRouterGas := "gasswap".

Record TokenConfig : Type := mkTokenConfig {
  TxType : string;
  SwapServer : string;
  CallByContract : string;
  Whitelist : list string;
  PairID : string;
  TokenAddress : string;
  DepositAddress : string;
  ChainID : string;
  RouterContract : string
}.

Definition IsNativeToken (c : TokenConfig) : bool :=
  String.eqb (TokenAddress c) "native".

Definition IsValidSwapType (c : TokenConfig) : bool :=
  String.eqb (TxType c) TxSwapin
  || String.eqb (TxType c) TxSwapout
  || String.eqb (TxType c) TxSwapout2
  || String.eqb (TxType c) TxRouterGas
  || String.eqb (TxType c) TxRouterERC20Swap
  || String.eqb (TxType c) TxRouterNFTSwap
  || String.eqb (TxType c) TxRouterAnycallSwap.

Definition IsBridgeSwap (c : TokenConfig) : bool :=
  String.eqb (TxType c) TxSwapin
  || String.eqb (TxType c) TxSwapout
  || String.eqb (TxType c) TxSwapout2.

Definition IsRouterSwapAll (c : TokenConfig) : bool :=
  String.eqb (TxType c) TxRouterERC20Swap
  || String.eqb (TxType c) TxRouterNFTSwap
  || String.eqb (TxType c) TxRouterAnycallSwap
  || String.eqb (TxType c) TxRouterGas.

Definition IsRouterERC20Swap (c : TokenConfig) : bool :=
  String.eqb (TxType c) TxRouterERC20Swap || String.eqb (TxType c) TxRouterGas.

Definition IsRouterSwap (c : TokenConfig) : bool :=
  String.eqb (TxType c) TxRouterERC20Swap || String.eqb (TxType c) TxRouterGas.

Definition IsRouterNFTSwap (c : TokenConfig) : bool :=
  String.eqb (TxType c) TxRouterNFTSwap.

Definition IsRouterAnycallSwap (c : TokenConfig) : bool :=
  String.eqb (TxType c) TxRouterAnycallSwap.

(** *** Validation of the configuration *)

(** The errors of [CheckConfig], one per [errors.New]/[fmt.Errorf] of the
    source, with the values the message prints. *)
Inductive ConfigError : Type :=
| ErrNoTokenConfig                               (* no token config exist *)
| ErrInvalidTxType (txType : string)             (* invalid 'TxType' *)
| ErrEmptySwapServer                             (* empty 'SwapServer' *)
| ErrWrongCallByContract (addr : string)         (* wrong 'CallByContract' *)
| ErrWrongWhitelist (addr : string)              (* wrong 'Whitelist' address *)
| ErrEmptyPairID                                 (* empty 'PairID' *)
| ErrWrongTokenAddress (addr : string)           (* wrong 'TokenAddress' *)
| ErrWrongDepositAddress (addr : string)         (* wrong 'DepositAddress' *)
| ErrWrongRouterContract (addr : string)         (* wrong 'RouterContract' *)
| ErrWrongChainID (chainID : string)             (* wrong chainID *)
| ErrDuplicateRouter (routerContract : string)   (* duplicate router swap config *)
| ErrDuplicatePairID (pairIDKey : string)        (* duplicate pairID config *)
| ErrDuplicateToken (tokensKey : string).        (* duplicate token config *)

Section CheckConfig.

(** The two functions of the bridge library's [common] package used by the
    checks: [IsHexAddress], and whether [GetBigIntFromStr] parses. *)
Variable IsHexAddress : string -> bool.
Variable IsBigInt : string -> bool.

Definition setTokenAddress (c : TokenConfig) (addr : string) : TokenConfig :=
  mkTokenConfig (TxType c) (SwapServer c) (CallByContract c) (Whitelist c)
                (PairID c) addr (DepositAddress c) (ChainID c) (RouterContract c).

(** [TokenConfig.CheckConfig]: the error, and the rule as the call leaves
    it (a swapin rule called by contract gets its empty token address
    assigned). *)
Definition TokenConfig_CheckConfig (c : TokenConfig) : option ConfigError * TokenConfig :=
  if negb (IsValidSwapType c) then (Some (ErrInvalidTxType (TxType c)), c)
  else if String.eqb (SwapServer c) "" then (Some ErrEmptySwapServer, c)
  else if negb (String.eqb (CallByContract c) "") && negb (IsHexAddress (CallByContract c))
  then (Some (ErrWrongCallByContract (CallByContract c)), c)
  else
    match find (fun addr => negb (IsHexAddress addr)) (Whitelist c) with
    | Some addr => (Some (ErrWrongWhitelist addr), c)
    | None =>
        if IsBridgeSwap c then
          if String.eqb (PairID c) "" then (Some ErrEmptyPairID, c)
          else
            let c1 :=
              if String.eqb (TxType c) TxSwapin
                 && negb (String.eqb (CallByContract c) "")
                 && String.eqb (TokenAddress c) ""
              then setTokenAddress c (CallByContract c)
              else c in
            if negb (IsNativeToken c1) && negb (IsHexAddress (TokenAddress c1))
            then (Some (ErrWrongTokenAddress (TokenAddress c1)), c1)
            else if negb (String.eqb (DepositAddress c1) "")
                    && negb (IsHexAddress (DepositAddress c1))
            then (Some (ErrWrongDepositAddress (DepositAddress c1)), c1)
            else (None, c1)
        else if IsRouterSwap c then
          if negb (IsHexAddress (RouterContract c))
          then (Some (ErrWrongRouterContract (RouterContract c)), c)
          else if negb (IsBigInt (ChainID c))
          then (Some (ErrWrongChainID (ChainID c)), c)
          else (None, c)
        else (None, c)
    end.

Definition routerKey (c : TokenConfig) : string :=
  strings.ToLower (ChainID c ++ ":" ++ RouterContract c ++ ":" ++ SwapServer c).

Definition pairIDKey (c : TokenConfig) : string :=
  strings.ToLower (TokenAddress c ++ ":" ++ PairID c ++ ":" ++ TxType c ++ ":"
                   ++ SwapServer c).

Definition tokensKey (c : TokenConfig) : string :=
  strings.ToLower (TokenAddress c ++ ":" ++ DepositAddress c).

Definition inMap (key : string) (m : list string) : bool :=
  existsb (String.eqb key) m.

(** The loop of [ScanConfig.CheckConfig] over the rules still to check;
    the three lists are the key sets of [pairIDMap], [tokensMap] and
    [routerswapMap], and [checked] the rules already passed, as the checks
    left them.  The source never adds a key to [routerswapMap]. *)
Fixpoint ScanConfig_CheckConfig_loop (tokens checked : list TokenConfig)
    (pairIDMap tokensMap routerswapMap : list string)
  : option ConfigError * list TokenConfig :=
  match tokens with
  | [] => (None, checked)
  | tokenCfg :: rest =>
      let '(err, c) := TokenConfig_CheckConfig tokenCfg in
      match err with
      | Some e => (Some e, checked ++ c :: rest)
      | None =>
          if IsRouterSwap c || IsRouterNFTSwap c || IsRouterAnycallSwap c then
            if inMap (routerKey c) routerswapMap
            then (Some (ErrDuplicateRouter (RouterContract c)), checked ++ c :: rest)
            else ScanConfig_CheckConfig_loop rest (checked ++ [c])
                   pairIDMap tokensMap routerswapMap
          else if negb (String.eqb (CallByContract c) "") then
            ScanConfig_CheckConfig_loop rest (checked ++ [c])
              pairIDMap tokensMap routerswapMap
          else if inMap (pairIDKey c) pairIDMap
          then (Some (ErrDuplicatePairID (pairIDKey c)), checked ++ c :: rest)
          else if negb (IsNativeToken c) then
            if inMap (tokensKey c) tokensMap
            then (Some (ErrDuplicateToken (tokensKey c)), checked ++ c :: rest)
            else ScanConfig_CheckConfig_loop rest (checked ++ [c])
                   (pairIDKey c :: pairIDMap) (tokensKey c :: tokensMap) routerswapMap
          else ScanConfig_CheckConfig_loop rest (checked ++ [c])
                 (pairIDKey c :: pairIDMap) tokensMap routerswapMap
      end
  end.

(** [ScanConfig.CheckConfig]: the error, and the token table after the call. *)
Definition ScanConfig_CheckConfig (tokens : list TokenConfig)
  : option ConfigError * list TokenConfig :=
  match tokens with
  | [] => (Some ErrNoTokenConfig, tokens)
  | _ :: _ => ScanConfig_CheckConfig_loop tokens [] [] [] []
  end.

(** The state of the registry: the token table of [scanConfig] and the
    latch [HaveReloadConfig]. *)
Record Registry : Type := mkRegistry {
  scanConfigTokens : list TokenConfig;
  HaveReloadConfig : bool
}.

(** [ReloadConfig], given whether the configuration file exists and the
    token table it decodes to ([None] when decoding fails). *)
Definition ReloadConfig (fileExist : bool) (decoded : option (list TokenConfig))
    (reg : Registry) : Registry :=
  if negb fileExist then reg
  else
    match decoded with
    | None => reg
    | Some tokens =>
        let '(err, tokens') := ScanConfig_CheckConfig tokens in
        match err with
        | Some _ => mkRegistry tokens' (HaveReloadConfig reg)
        | None => mkRegistry tokens' true
        end
    end.

End CheckConfig.

End params.

(* ================================================================= *)
(** ** Package [types] of the chain client *)

Module types.

Record Log : Type := mkLog {
  Address : list byte;
  Topics : list (list byte);
  Data : option (list byte);      (* [None] is a nil slice *)
  Removed : bool
}.

Record Receipt : Type := mkReceipt {
  Status : Z;
  Logs : list Log
}.

Record Transaction : Type := mkTransaction {
  To : option (list byte);        (* [None] is the nil pointer of a contract creation *)
  Hash : list byte;
  Input : list byte               (* [tx.Data()] *)
}.

End types.

(* ================================================================= *)
(** ** Package [scanner] *)

Module scanner.

Import tokens params types.

(** *** Constants *)

Definition transferFuncHash := common.FromHex "0xa9059cbb".
Definition transferFromFuncHash := common.FromHex "0x23b872dd".
Definition addressSwapoutFuncHash := common.FromHex "0x628d6cba".
Definition stringSwapoutFuncHash := common.FromHex "0xad54056d".

Definition transferLogTopic :=
  common.HexToHash "0xddf252ad1be2c89b69c2b068fc378daa952ba7f163c4a11628f55a4df523b3ef".
Definition addressSwapoutLogTopic :=
  common.HexToHash "0x6b616089d04950dc06c45c6dd787d657980543f89651aec47924752c7d16c888".
Definition stringSwapoutLogTopic :=
  common.HexToHash "0x9c92ad817e5474d30a4378deface765150479363a897b0590fbb12ae9d89396b".

Definition routerAnySwapOutTopic :=
  common.FromHex "0x97116cf6cd4f6412bb47914d6db18da9e16ab2142f543b86e207c24fbd16b23a".
Definition routerAnySwapTradeTokensForTokensTopic :=
  common.FromHex "0xfea6abdf4fd32f20966dff7619354cd82cd43dc78a3bee479f04c74dbfc585b3".
Definition routerAnySwapTradeTokensForNativeTopic :=
  common.FromHex "0x278277e0209c347189add7bd92411973b5f6b8644f7ac62ea1be984ce993f8f4".

Definition logNFT721SwapOutTopic :=
  common.FromHex "0x0d45b0b9f5add3e1bb841982f1fa9303628b0b619b000cb1f9f1c3903329a4c7".
Definition logNFT1155SwapOutTopic :=
  common.FromHex "0x5058b8684cf36ffd9f66bc623fbc617a44dd65cf2273306d03d3104af0995cb0".
Definition logNFT1155SwapOutBatchTopic :=
  common.FromHex "0xaa428a5ab688b49b415401782c170d216b33b15711d30cf69482f570eca8db38".

Definition logAnycallSwapOutTopic :=
  common.FromHex "0x9ca1de98ebed0a9c38ace93d3ca529edacbbe199cf1b6f0f416ae9b724d4a81c".
Definition logAnycallTransferSwapOutTopic :=
  common.FromHex "0xcaac11c45e5fdb5c513e20ac229a3f9f99143580b5eb08d0fecbdd5ae8c81ef5".

Definition postSwapSuccessResult := "success".
Definition bridgeSwapExistKeywords := "mgoError: Item is duplicate".
Definition routerSwapExistResult := "already registered".
Definition routerSwapExistResultTmp := "alreday registered".
Definition httpTimeoutKeywords := "Client.Timeout exceeded while awaiting headers".
Definition errConnectionRefused := "connect: connection refused".
Definition errMaximumRequestLimit := "You have reached maximum request limit".
Definition rpcQueryErrKeywords := "rpc query error".
Definition swapIsClosedResult := "swap is closed".
Definition swapTradeNotSupport := "swap trade not support".
Definition txWithWrongContract := "tx with wrong contract".

(** *** Data *)

Record swapPost : Type := mkSwapPost {
  txid : string;
  rpcMethod : string;
  swapServer : string;
  chain_ : string;                (* field [chain] *)
  pairID : string;
  chainID : string;
  logIndex : string
}.

(** The document written by [mongodb.AddSwap] and [mongodb.AddSwapPending]
    (the [Timestamp] field, the wall clock, is left out). *)
Record MgoSwap : Type := mkMgoSwap {
  Id : string;
  MgoPairID : string;
  RpcMethod : string;
  MgoSwapServer : string;
  MgoChainID : string;
  LogIndex : string;
  Chain : string
}.

(** The fields of the scanner the modelled functions read. *)
Record ethSwapScanner : Type := mkScanner {
  scanReceipt : bool;
  rpcRetryCount : Z
}.

(** The arguments of the JSON-RPC request built by [rpcPost]. *)
Inductive RPCArgs : Type :=
| BridgeArgs (txid pairid : string)
| RouterArgs (chainid txid logindex : string).

(** A decoded JSON result ([interface{}]).  The entries of an object are
    listed in the order in which a [range] over the Go map visits them; of
    the value of an entry only the dynamic type matters, a string or not. *)
Inductive Field : Type :=
| FString (s : string)
| FOther.                                  (* null, number, boolean, array or object *)

Inductive Value : Type :=
| VNil
| VString (s : string)
| VOther                                   (* number, boolean or array *)
| VMap (entries : list (string * Field)).

(** *** The world outside the scanner *)

(** What the collaborators answer.  The first argument counts the calls made
    so far, so that the same request may be answered differently over time. *)
Record Env : Type := mkEnv {
  TransactionReceipt : nat -> list byte -> Receipt + error;
  RPCPostWithTimeoutAndID : nat -> string -> string -> RPCArgs -> Value * option error;
  UpdateSyncedBlockNumber : nat -> string -> Z -> option error
}.

(** The events recorded by a run.  The first six are the calls that leave
    the scanner: [client.TransactionReceipt], [client.RPCPostWithTimeoutAndID],
    [cachedSwapPosts.Add], [mongodb.AddSwapPending], [mongodb.AddSwap] and
    [mongodb.UpdateSyncedBlockNumber].  The last three are marks inside the
    scanner: the entry into [verifyTransaction] (a rule is offered a
    transaction), the entry into [postSwapPost] (a record reaches the
    dispatcher) and the return of [rpcPost] with its error. *)
Inductive Event : Type :=
| EvTransactionReceipt (txHash : list byte)
| EvRPCPost (server method : string) (args : RPCArgs)
| EvRingAdd (swap : swapPost)
| EvAddSwapPending (ms : MgoSwap)
| EvAddSwap (ms : MgoSwap)
| EvUpdateSyncedBlockNumber (chain : string) (number : Z)
| EvVerifyTransaction (txHash : list byte) (tokenCfg : TokenConfig)
| EvPostSwapPost (swap : swapPost)
| EvRpcPostReturn (swap : swapPost) (err : option error).

(** The package-level variables, and the token table of [params]. *)
Record Globals : Type := mkGlobals {
  chain : string;
  mongodbEnable : bool;
  syncedNumber : Z;
  syncedCount : Z;
  syncdCount2Mongodb : Z;
  synced : bool;
  Tokens : list TokenConfig
}.

Record World : Type := mkWorld {
  env : Env;
  clock : nat;                    (* calls answered by [env] so far *)
  vars : Globals
}.

Inductive PanicKind : Type :=
| IndexOutOfRange
| NilPointer
| TypeAssertion.

Inductive Outcome (A : Type) : Type :=
| Normal (a : A)
| Panic (k : PanicKind).
Arguments Normal {A} a.
Arguments Panic {A} k.

(** A run: how it ended, the world it left, and the calls it made. *)
Record Run (A : Type) : Type := mkRun {
  outcome : Outcome A;
  final : World;
  events : list Event
}.
Arguments mkRun {A}.
Arguments outcome {A}.
Arguments final {A}.
Arguments events {A}.

(** Computations of the scanner: state over [World], a trace of calls,
    and panics, which stop the computation and keep what was done so far. *)
Definition M (A : Type) : Type := World -> Run A.

Definition ret {A} (a : A) : M A := fun w => mkRun (Normal a) w [].

Definition bind {A B} (m : M A) (k : A -> M B) : M B :=
  fun w =>
    let r := m w in
    match outcome r with
    | Normal a =>
        let r' := k a (final r) in
        mkRun (outcome r') (final r') (events r ++ events r')
    | Panic p => mkRun (Panic p) (final r) (events r)
    end.

Definition panic {A} (p : PanicKind) : M A := fun w => mkRun (Panic p) w [].

Definition lift {A} (o : Outcome A) : M A := fun w => mkRun o w [].

Declare Scope go_scope.
Delimit Scope go_scope with go.
Notation "x <- c1 ;; c2" := (bind c1 (fun x => c2))
  (at level 61, c1 at next level, right associativity) : go_scope.
Notation "' pat <- c1 ;; c2" := (bind c1 (fun x => match x with pat => c2 end))
  (at level 61, pat pattern, c1 at next level, right associativity) : go_scope.
Notation "c1 ;; c2" := (bind c1 (fun _ => c2))
  (at level 61, right associativity) : go_scope.
Local Open Scope go_scope.

Definition emit (ev : Event) : M unit := fun w => mkRun (Normal tt) w [ev].

(** Ask the environment: the answer is the one for the current call count,
    which is then advanced. *)
Definition ask {A} (q : Env -> nat -> A) : M A :=
  fun w => mkRun (Normal (q (env w) (clock w)))
                 (mkWorld (env w) (S (clock w)) (vars w)) [].

Definition getVars : M Globals := fun w => mkRun (Normal (vars w)) w [].

Definition setVars (g : Globals) : M unit :=
  fun w => mkRun (Normal tt) (mkWorld (env w) (clock w) g) [].

(** *** Chain client adapter *)

(** One call of [client.TransactionReceipt]. *)
Definition client_TransactionReceipt (txHash : list byte) : M (Receipt + error) :=
  emit (EvTransactionReceipt txHash) ;;
  ask (fun e n => TransactionReceipt e n txHash).

Fixpoint loopGetTxReceipt_from (n : nat) (txHash : list byte) (err : option error)
  : M (option Receipt * option error) :=
  match n with
  | O => ret (None, err)
  | S n' =>
      r <- client_TransactionReceipt txHash ;;
      match r with
      | inl receipt =>
          if negb (Status receipt =? 1)%Z
          then ret (None, Some (errors_New "tx with wrong receipt status"))
          else ret (Some receipt, None)
      | inr e => loopGetTxReceipt_from n' txHash (Some e)
      end
  end.

(** [loopGetTxReceipt]: at most five attempts (the pause between two
    attempts is not modelled). *)
Definition loopGetTxReceipt (txHash : list byte) : M (option Receipt * option error) :=
  loopGetTxReceipt_from 5 txHash None.

(** *** Verification of call data and receipt logs *)

Definition getSwapoutFuncHashByTxType (txType : string) : list byte :=
  let t := strings.ToLower txType in
  if String.eqb t TxSwapout then addressSwapoutFuncHash
  else if String.eqb t TxSwapout2 then stringSwapoutFuncHash
  else [].

Definition getLogTopicByTxType (txType : string) : list byte * nat :=
  let t := strings.ToLower txType in
  if String.eqb t TxSwapin then (transferLogTopic, 3%nat)
  else if String.eqb t TxSwapout then (addressSwapoutLogTopic, 3%nat)
  else if String.eqb t TxSwapout2 then (stringSwapoutLogTopic, 2%nat)
  else (repeat x00 common.HashLength, 0%nat).

Definition parseErc20SwapinTxInput (input : list byte) (depositAddress : string)
  : option error :=
  if (List.length input <? 4)%nat then Some ErrTxWithWrongInput
  else
    let funcHash := firstn 4 input in
    let check (receiver : string) :=
      if negb (strings.EqualFold receiver depositAddress)
      then Some ErrTxWithWrongReceiver
      else None in
    if bytes.Equal funcHash transferFuncHash then
      check (common.Hex (common.BytesToAddress (common.GetData input 4 32)))
    else if bytes.Equal funcHash transferFromFuncHash then
      check (common.Hex (common.BytesToAddress (common.GetData input 36 32)))
    else Some ErrTxFuncHashMismatch.

(** The loop of [parseErc20SwapinTxLogs]; [transferLogExist] is the flag of
    the same name.  [rlog.Topics[0]] and [rlog.Topics[2]] panic when the
    index is out of range. *)
Fixpoint parseErc20SwapinTxLogs_loop (logs : list Log)
    (targetContract depositAddress : string) (cmpLogTopic : list byte)
    (topicsLen : nat) (transferLogExist : bool) : Outcome (option error) :=
  match logs with
  | [] =>
      if transferLogExist then Normal (Some ErrTxWithWrongReceiver)
      else Normal (Some ErrDepositLogNotFound)
  | rlog :: rest =>
      let continue_ :=
        parseErc20SwapinTxLogs_loop rest targetContract depositAddress
          cmpLogTopic topicsLen in
      if Removed rlog then continue_ transferLogExist
      else if negb (strings.EqualFold (common.Hex (Address rlog)) targetContract)
      then continue_ transferLogExist
      else if negb (List.length (Topics rlog) =? topicsLen)%nat
                || match Data rlog with None => true | Some _ => false end
      then continue_ transferLogExist
      else
        match nth_error (Topics rlog) 0 with
        | None => Panic IndexOutOfRange
        | Some topic0 =>
            if negb (bytes.Equal topic0 cmpLogTopic) then continue_ transferLogExist
            else
              match nth_error (Topics rlog) 2 with
              | None => Panic IndexOutOfRange
              | Some topic2 =>
                  let receiver := common.Hex (common.BytesToAddress topic2) in
                  if strings.EqualFold receiver depositAddress then Normal None
                  else continue_ true
              end
        end
  end.

Definition parseErc20SwapinTxLogs (logs : list Log) (tokenCfg : TokenConfig)
  : Outcome (option error) :=
  let targetContract := TokenAddress tokenCfg in
  let depositAddress := DepositAddress tokenCfg in
  let '(cmpLogTopic, topicsLen) := getLogTopicByTxType (TxType tokenCfg) in
  parseErc20SwapinTxLogs_loop logs targetContract depositAddress
    cmpLogTopic topicsLen false.

Definition parseSwapoutTxInput (input : list byte) (txType : string) : option error :=
  if (List.length input <? 4)%nat then Some ErrTxWithWrongInput
  else if bytes.Equal (firstn 4 input) (getSwapoutFuncHashByTxType txType) then None
  else Some ErrTxFuncHashMismatch.

Fixpoint parseSwapoutTxLogs_loop (logs : list Log) (targetContract : string)
    (cmpLogTopic : list byte) (topicsLen : nat) : Outcome (option error) :=
  match logs with
  | [] => Normal (Some ErrSwapoutLogNotFound)
  | rlog :: rest =>
      let continue_ := parseSwapoutTxLogs_loop rest targetContract cmpLogTopic topicsLen in
      if Removed rlog then continue_
      else if negb (strings.EqualFold (common.Hex (Address rlog)) targetContract)
      then continue_
      else if negb (List.length (Topics rlog) =? topicsLen)%nat
                || match Data rlog with None => true | Some _ => false end
      then continue_
      else
        match nth_error (Topics rlog) 0 with
        | None => Panic IndexOutOfRange
        | Some topic0 =>
            if bytes.Equal topic0 cmpLogTopic then Normal None else continue_
        end
  end.

Definition parseSwapoutTxLogs (logs : list Log) (tokenCfg : TokenConfig)
  : Outcome (option error) :=
  let targetContract := TokenAddress tokenCfg in
  let '(cmpLogTopic, topicsLen) := getLogTopicByTxType (TxType tokenCfg) in
  parseSwapoutTxLogs_loop logs targetContract cmpLogTopic topicsLen.

Definition verifyErc20SwapinTx (tx : Transaction) (receipt : option Receipt)
    (tokenCfg : TokenConfig) : Outcome (option error) :=
  match receipt with
  | None => Normal (parseErc20SwapinTxInput (Input tx) (DepositAddress tokenCfg))
  | Some r => parseErc20SwapinTxLogs (Logs r) tokenCfg
  end.

Definition verifySwapoutTx (tx : Transaction) (receipt : option Receipt)
    (tokenCfg : TokenConfig) : Outcome (option error) :=
  match receipt with
  | None => Normal (parseSwapoutTxInput (Input tx) (TxType tokenCfg))
  | Some r => parseSwapoutTxLogs (Logs r) tokenCfg
  end.

(** *** Registration dispatcher *)

Definition checkSwapPostError (err : error) : option error :=
  if strings.Contains (Error err) routerSwapExistResult
     || strings.Contains (Error err) routerSwapExistResultTmp then None
  else if strings.Contains (Error err) swapIsClosedResult then None
  else if strings.Contains (Error err) swapTradeNotSupport then None
  else Some err.

Definition checkRouterStatus (status : string) : option error :=
  if strings.Contains status postSwapSuccessResult then None
  else if strings.Contains status routerSwapExistResult
          || strings.Contains status routerSwapExistResultTmp then None
  else if strings.Contains status txWithWrongContract then None
  else Some (errors_New status).

(** [fmt.Sprintf("%v", swap)] for a pointer to a [swapPost]. *)
Definition swapPost_String (swap : swapPost) : string :=
  "&{" ++ txid swap ++ " " ++ rpcMethod swap ++ " " ++ swapServer swap ++ " "
       ++ chain_ swap ++ " " ++ pairID swap ++ " " ++ chainID swap ++ " "
       ++ logIndex swap ++ "}".

Fixpoint lookupField (key : string) (entries : list (string * Field)) : option Field :=
  match entries with
  | [] => None
  | (k, v) :: rest => if String.eqb k key then Some v else lookupField key rest
  end.

(** The [range] over the re-decoded result map in [rpcPost]: the type
    assertion [value.(string)] panics on an entry that is not a string. *)
Fixpoint rpcPost_rangeResultMap (entries : list (string * Field)) (err : error)
  : Outcome (option error) :=
  match entries with
  | [] => Normal (Some err)
  | (_, FString value) :: rest =>
      if strings.Contains value routerSwapExistResult
         || strings.Contains value routerSwapExistResultTmp
      then Normal None
      else rpcPost_rangeResultMap rest err
  | (_, FOther) :: _ => Panic TypeAssertion
  end.

Definition rpcPost_body (swap : swapPost) : M (option error) :=
  let post (isRouterSwap : bool) (args : RPCArgs) : M (option error) :=
    emit (EvRPCPost (swapServer swap) (rpcMethod swap) args) ;;
    r <- ask (fun e n => RPCPostWithTimeoutAndID e n (swapServer swap) (rpcMethod swap) args) ;;
    match snd r with
    | Some err =>
        match checkSwapPostError err with
        | None => ret None
        | Some _ =>
            if isRouterSwap then ret (Some err)
            else if strings.Contains (Error err) bridgeSwapExistKeywords then ret None
            else ret (Some err)
        end
    | None =>
        if negb isRouterSwap then ret None
        else
          let status :=
            match fst r with
            | VMap res => match lookupField (logIndex swap) res with
                          | Some (FString s) => s
                          | _ => ""
                          end
            | _ => ""
            end in
          if String.eqb status "" then
            let resultMap := match fst r with VMap res => res | _ => [] end in
            lift (rpcPost_rangeResultMap resultMap
                    (errors_New "post router swap unmarshal result failed"))
          else ret (checkRouterStatus status)
    end in
  if negb (String.eqb (pairID swap) "") then
    post false (BridgeArgs (txid swap) (pairID swap))
  else if negb (String.eqb (logIndex swap) "") then
    post true (RouterArgs (chainID swap) (txid swap) (logIndex swap))
  else
    ret (Some (errors_New ("wrong swap post item " ++ swapPost_String swap
                             ++ ", no pairid and logindex"))).

(** [rpcPost]: the body above, and the mark of its return. *)
Definition rpcPost (swap : swapPost) : M (option error) :=
  err <- rpcPost_body swap ;;
  emit (EvRpcPostReturn swap err) ;;
  ret err.

Definition toMgoSwap (swap : swapPost) (chain : string) : MgoSwap :=
  mkMgoSwap (txid swap) (pairID swap) (rpcMethod swap) (swapServer swap)
            (chainID swap) (logIndex swap) chain.

Definition addMongodbSwapPost (swap : swapPost) : M unit :=
  g <- getVars ;;
  emit (EvAddSwap (toMgoSwap swap (chain g))).

Definition addMongodbSwapPendingPost (swap : swapPost) : M unit :=
  g <- getVars ;;
  emit (EvAddSwapPending (toMgoSwap swap (chain g))).

(** The condition under which [postSwapPost] raises [needCached] and
    [needPending]. *)
Definition needRetry (err : error) : bool :=
  errors_Is (Some err) TxNotFound
  || strings.Contains (Error err) httpTimeoutKeywords
  || strings.Contains (Error err) errConnectionRefused
  || strings.Contains (Error err) errMaximumRequestLimit.

(** The retry loop of [postSwapPost], with [n] iterations left; it returns
    the two flags (the pause between two attempts is not modelled). *)
Fixpoint postSwapPost_loop (n : nat) (swap : swapPost) (needCached needPending : bool)
  : M (bool * bool) :=
  match n with
  | O => ret (needCached, needPending)
  | S n' =>
      err <- rpcPost swap ;;
      match err with
      | None => ret (needCached, needPending)
      | Some e =>
          if needRetry e
          then postSwapPost_loop n' swap true true
          else postSwapPost_loop n' swap needCached needPending
      end
  end.

Definition postSwapPost (scanner : ethSwapScanner) (swap : swapPost) : M unit :=
  emit (EvPostSwapPost swap) ;;
  '(needCached, needPending) <-
     postSwapPost_loop (Z.to_nat (rpcRetryCount scanner)) swap false false ;;
  g <- getVars ;;
  (if needCached then emit (EvRingAdd swap) else ret tt) ;;
  (if needPending then
     if mongodbEnable g then addMongodbSwapPendingPost swap else ret tt
   else ret tt) ;;
  (if negb needCached && negb needPending then
     if mongodbEnable g then addMongodbSwapPost swap else ret tt
   else ret tt).

Definition postBridgeSwap (scanner : ethSwapScanner) (txid : string)
    (tokenCfg : TokenConfig) : M unit :=
  let rpcMethod :=
    if negb (String.eqb (DepositAddress tokenCfg) "") then "swap.Swapin"
    else "swap.Swapout" in
  postSwapPost scanner
    (mkSwapPost txid rpcMethod (SwapServer tokenCfg) "" (PairID tokenCfg) "" "").

Definition postRouterSwap (scanner : ethSwapScanner) (txid : string) (logIndex : nat)
    (tokenCfg : TokenConfig) : M unit :=
  postSwapPost scanner
    (mkSwapPost txid "swap.RegisterRouterSwap" (SwapServer tokenCfg) ""
                "" (ChainID tokenCfg) (fmt.Sprintf_d logIndex)).

(** [repostSwap], the single-shot repost of the retry ring and of the
    pending-queue worker. *)
Fixpoint repostSwap_loop (n : nat) (swap : swapPost) : M bool :=
  match n with
  | O => ret false
  | S n' =>
      err <- rpcPost swap ;;
      match err with
      | None => ret true
      | Some e =>
          if strings.Contains (Error e) rpcQueryErrKeywords
             || strings.Contains (Error e) httpTimeoutKeywords
             || strings.Contains (Error e) errConnectionRefused
             || strings.Contains (Error e) errMaximumRequestLimit
          then repostSwap_loop n' swap
          else ret false
      end
  end.

Definition repostSwap (scanner : ethSwapScanner) (swap : swapPost) : M bool :=
  repostSwap_loop (Z.to_nat (rpcRetryCount scanner)) swap.

(** *** Classifier *)

(** The topic test of [verifyAndPostRouterSwapTx]: [false] is the
    [continue] of an inner [default]; when no outer case applies the
    [switch] is left and the log is posted. *)
Definition routerTopicAccepted (tokenCfg : TokenConfig) (logTopic : list byte) : bool :=
  if IsRouterERC20Swap tokenCfg then
    bytes.Equal logTopic routerAnySwapOutTopic
    || bytes.Equal logTopic routerAnySwapTradeTokensForTokensTopic
    || bytes.Equal logTopic routerAnySwapTradeTokensForNativeTopic
  else if IsRouterNFTSwap tokenCfg then
    bytes.Equal logTopic logNFT721SwapOutTopic
    || bytes.Equal logTopic logNFT1155SwapOutTopic
    || bytes.Equal logTopic logNFT1155SwapOutBatchTopic
  else if IsRouterAnycallSwap tokenCfg then
    bytes.Equal logTopic logAnycallSwapOutTopic
    || bytes.Equal logTopic logAnycallTransferSwapOutTopic
  else true.

(** The loop of [verifyAndPostRouterSwapTx] over [receipt.Logs], at index [i]. *)
Fixpoint verifyAndPostRouterSwapTx_loop (scanner : ethSwapScanner) (txHash : string)
    (tokenCfg : TokenConfig) (logs : list Log) (i : nat) : M unit :=
  match logs with
  | [] => ret tt
  | rlog :: rest =>
      let continue_ := verifyAndPostRouterSwapTx_loop scanner txHash tokenCfg rest (S i) in
      if Removed rlog then continue_
      else if negb (strings.EqualFold (common.Hex (Address rlog)) (RouterContract tokenCfg))
      then continue_
      else
        match nth_error (Topics rlog) 0 with
        | None => panic IndexOutOfRange
        | Some logTopic =>
            if routerTopicAccepted tokenCfg logTopic
            then postRouterSwap scanner txHash i tokenCfg ;; continue_
            else continue_
        end
  end.

Definition verifyAndPostRouterSwapTx (scanner : ethSwapScanner) (tx : Transaction)
    (receipt : option Receipt) (tokenCfg : TokenConfig) : M unit :=
  match receipt with
  | None => ret tt
  | Some r =>
      verifyAndPostRouterSwapTx_loop scanner (common.Hex (Hash tx)) tokenCfg (Logs r) 0
  end.

Definition checkTxToAddress (scanner : ethSwapScanner) (tx : Transaction)
    (tokenCfg : TokenConfig) : M (option Receipt * bool) :=
  match To tx with
  | None => panic NilPointer
  | Some to =>
      let needReceipt := scanReceipt scanner in
      let txtoAddress := common.Hex to in
      let '(cmpTxTo, needReceipt) :=
        if IsRouterSwap tokenCfg then (RouterContract tokenCfg, true)
        else if IsNativeToken tokenCfg then (DepositAddress tokenCfg, needReceipt)
        else if negb (String.eqb (CallByContract tokenCfg) "")
             then (CallByContract tokenCfg, true)
             else (TokenAddress tokenCfg, needReceipt) in
      let '(isAcceptToAddr, needReceipt) :=
        if strings.EqualFold txtoAddress cmpTxTo then (true, needReceipt)
        else if negb (IsNativeToken tokenCfg) then
          if existsb (fun whiteAddr => strings.EqualFold txtoAddress whiteAddr)
                     (Whitelist tokenCfg)
          then (true, true)
          else (false, needReceipt)
        else (false, needReceipt) in
      if negb isAcceptToAddr then ret (None, false)
      else if needReceipt then
        r <- loopGetTxReceipt (Hash tx) ;;
        match snd r with
        | Some _ => ret (None, false)
        | None => ret (fst r, true)
        end
      else ret (None, true)
  end.

Definition verifyTransaction (scanner : ethSwapScanner) (tx : Transaction)
    (tokenCfg : TokenConfig) : M (option error) :=
  emit (EvVerifyTransaction (Hash tx) tokenCfg) ;;
  '(receipt, isAcceptToAddr) <- checkTxToAddress scanner tx tokenCfg ;;
  if negb isAcceptToAddr then ret None
  else
    let txHash := common.Hex (Hash tx) in
    let finish (verifyErr : option error) : M (option error) :=
      (match verifyErr with
       | None => postBridgeSwap scanner txHash tokenCfg
       | Some _ => ret tt
       end) ;;
      ret verifyErr in
    if IsRouterSwap tokenCfg then
      verifyAndPostRouterSwapTx scanner tx receipt tokenCfg ;;
      ret None
    else if negb (String.eqb (DepositAddress tokenCfg) "") then
      if IsNativeToken tokenCfg then
        postBridgeSwap scanner txHash tokenCfg ;;
        ret None
      else
        verifyErr <- lift (verifyErc20SwapinTx tx receipt tokenCfg) ;;
        if errors_Is verifyErr TxWithWrongReceiver then ret None
        else finish verifyErr
    else
      verifyErr <-
        (if scanReceipt scanner then
           match receipt with
           | None => panic IndexOutOfRange
           | Some r => lift (parseSwapoutTxLogs (Logs r) tokenCfg)
           end
         else lift (verifySwapoutTx tx receipt tokenCfg)) ;;
      finish verifyErr.

(** The [range] over [params.GetScanConfig().Tokens] in [scanTransaction]. *)
Fixpoint scanTransaction_loop (scanner : ethSwapScanner) (tx : Transaction)
    (tokens : list TokenConfig) : M unit :=
  match tokens with
  | [] => ret tt
  | tokenCfg :: rest =>
      _ <- verifyTransaction scanner tx tokenCfg ;;
      scanTransaction_loop scanner tx rest
  end.

Definition scanTransaction (scanner : ethSwapScanner) (tx : Transaction) : M unit :=
  match To tx with
  | None => ret tt
  | Some _ =>
      g <- getVars ;;
      scanTransaction_loop scanner tx (Tokens g)
  end.

(** *** Sync-height checkpoint *)

Definition uint64 (z : Z) : Z := (z mod 2 ^ 64)%Z.

Definition updateSyncdBlockNumber (number : Z) : M unit :=
  g <- getVars ;;
  let g1 :=
    if (number =? uint64 (syncedNumber g + 1))%Z
    then mkGlobals (chain g) (mongodbEnable g) number (uint64 (syncedCount g + 1))
                   (syncdCount2Mongodb g) (synced g) (Tokens g)
    else g in
  setVars g1 ;;
  if (syncdCount2Mongodb g1 <=? syncedCount g1)%Z then
    let g2 := mkGlobals (chain g1) (mongodbEnable g1) (syncedNumber g1) (syncedCount g1)
                        (syncdCount2Mongodb g1) true (Tokens g1) in
    setVars g2 ;;
    emit (EvUpdateSyncedBlockNumber (chain g2) (syncedNumber g2)) ;;
    err <- ask (fun e n => UpdateSyncedBlockNumber e n (chain g2) (syncedNumber g2)) ;;
    match err with
    | None =>
        setVars (mkGlobals (chain g2) (mongodbEnable g2) (syncedNumber g2) 0%Z
                           (syncdCount2Mongodb g2) (synced g2) (Tokens g2))
    | Some _ => ret tt
    end
  else ret tt.

(** The checkpoint calls of one pass of [scanLoop] over the heights [hs]
    (the pass calls [updateSyncdBlockNumber] after scanning each block when
    the store is enabled; scanning a block does not touch the checkpoint). *)
Fixpoint scanLoop_checkpoints (hs : list Z) : M unit :=
  match hs with
  | [] => ret tt
  | h :: rest =>
      g <- getVars ;;
      (if mongodbEnable g then updateSyncdBlockNumber h else ret tt) ;;
      scanLoop_checkpoints rest
  end.

(** *** The ring of scanned blocks *)

Record cachedSacnnedBlocks : Type := mkCache {
  capacity : Z;
  nextIndex : Z;
  hashes : list string
}.

(** [cachedBlocks]: a hundred empty strings. *)
Definition cachedBlocks : cachedSacnnedBlocks :=
  mkCache 100 0 (repeat EmptyString 100).

(** [l[i] = x]. *)
Fixpoint setNth (l : list string) (i : nat) (x : string) : list string :=
  match l, i with
  | [], _ => []
  | _ :: l', O => x :: l'
  | y :: l', S i' => y :: setNth l' i' x
  end.

(** [addBlock]; [None] is the run-time panic of an index out of range or of
    a division by zero. *)
Definition addBlock (cache : cachedSacnnedBlocks) (blockHash : string)
  : option cachedSacnnedBlocks :=
  if (nextIndex cache <? 0)%Z || (Z.of_nat (List.length (hashes cache)) <=? nextIndex cache)%Z
  then None
  else if (capacity cache =? 0)%Z then None
  else Some (mkCache (capacity cache)
                     (Z.rem (nextIndex cache + 1) (capacity cache))
                     (setNth (hashes cache) (Z.to_nat (nextIndex cache)) blockHash)).

Definition isScanned (cache : cachedSacnnedBlocks) (blockHash : string) : bool :=
  existsb (fun b => String.eqb b blockHash) (hashes cache).

(** *** The range scan *)

(** The workers started by the loop of [doScanRangeJob] from worker [i] on,
    [n] of them left: each is a call [scanRange(i+1, from, to)]. *)
Fixpoint doScanRangeJob_loop (n : nat) (i start end_ jobs step : Z)
  : list (Z * Z * Z) :=
  match n with
  | O => []
  | S n' =>
      let from := uint64 (start + uint64 (i * step)) in
      let to := if (uint64 (i + 1) =? jobs)%Z then end_
                else uint64 (start + uint64 (uint64 (i + 1) * step)) in
      (uint64 (i + 1), from, to)
        :: doScanRangeJob_loop n' (uint64 (i + 1)) start end_ jobs step
  end.

(** [doScanRangeJob]: the calls of [scanRange] it starts and waits for;
    [None] is [log.Fatal]. *)
Definition doScanRangeJob (jobCount start end_ : Z) : option (list (Z * Z * Z)) :=
  if (jobCount =? 0)%Z then None
  else if (end_ <=? start)%Z then None
  else
    let count := uint64 (end_ - start) in
    let step := (count / jobCount)%Z in
    let '(jobs, step) := if (step =? 0)%Z then (1%Z, count) else (jobCount, step) in
    Some (doScanRangeJob_loop (Z.to_nat jobs) 0 start end_ jobs step).

(** The heights [h] of the calls [scanBlock(job, h, false)] made by
    [scanRange(job, from, to)], in order. *)
Definition scanRange (from to : Z) : list Z :=
  map (fun k => (from + Z.of_nat k)%Z) (seq 0 (Z.to_nat (to - from))).

(** *** The start of the range scan in [run] *)

Definition int64 (z : Z) : Z := ((z + 2 ^ 63) mod 2 ^ 64 - 2 ^ 63)%Z.

(** The range [run] hands to [doScanRangeJob], from [scanner.endHeight], the
    latest height of the chain (asked for only when no end is configured),
    the [--start] argument and [syncedNumber]; [None] when no range is
    scanned. *)
Definition run_range (endHeight latest startHeightArgument syncedNumber : Z)
  : option (Z * Z) :=
  let '(wend, startArg) :=
    if (endHeight =? 0)%Z then
      (latest,
       if (syncedNumber <? uint64 startHeightArgument)%Z
       then int64 syncedNumber else startHeightArgument)
    else (endHeight, startHeightArgument) in
  let startArg := if (startArg <? 0)%Z then int64 syncedNumber else startArg in
  if negb (startArg =? 0)%Z then
    let start :=
      if (0 <? startArg)%Z then uint64 startArg
      else if (startArg <? 0)%Z then uint64 (wend - uint64 (- startArg))
      else 0%Z in
    Some (start, wend)
  else None.

(** One pass of [scanLoop] ends by moving [from] up to the stability
    horizon below [latest]. *)
Definition scanLoop_nextFrom (from stable latest : Z) : Z :=
  if (uint64 (from + stable) <? latest)%Z then uint64 (latest - stable) else from.

End scanner.

(* ================================================================= *)
(** * Properties *)

Import tokens params types scanner.
Local Open Scope go_scope.

(** ** Vocabulary of the statements *)

(** The address held by the 32-byte word of the call data that starts at
    byte [off]: its last twenty bytes, i.e. the bytes [off+12 .. off+32) of
    the input, read as zero past the end of the input. *)
Definition wordAddress (input : list byte) (off : nat) : list byte :=
  map (fun i => nth (off + 12 + i) input x00) (seq 0 20).

(** A log that [parseErc20SwapinTxLogs] takes for a transfer of the token:
    not removed, emitted by the token contract, three topics of which the
    first is the [Transfer] topic, and data that is not nil. *)
Definition isTransferLog (tokenAddress : string) (l : Log) : bool :=
  negb (Removed l)
  && strings.EqualFold (common.Hex (Address l)) tokenAddress
  && (List.length (Topics l) =? 3)%nat
  && match Data l with Some _ => true | None => false end
  && match nth_error (Topics l) 0 with
     | Some t => bytes.Equal t transferLogTopic
     | None => false
     end.

(** The address in [topics[2]] of the log is the deposit address. *)
Definition hasReceiver (depositAddress : string) (l : Log) : bool :=
  match nth_error (Topics l) 2 with
  | Some t => strings.EqualFold (common.Hex (common.BytesToAddress t)) depositAddress
  | None => false
  end.

(** *** Reading the events of a run *)

Definition ringAdds (evs : list Event) : list swapPost :=
  flat_map (fun ev => match ev with EvRingAdd s => [s] | _ => [] end) evs.

Definition pendingInserts (evs : list Event) : list MgoSwap :=
  flat_map (fun ev => match ev with EvAddSwapPending m => [m] | _ => [] end) evs.

Definition registeredInserts (evs : list Event) : list MgoSwap :=
  flat_map (fun ev => match ev with EvAddSwap m => [m] | _ => [] end) evs.

(** The records handed to the dispatcher. *)
Definition dispatched (evs : list Event) : list swapPost :=
  flat_map (fun ev => match ev with EvPostSwapPost s => [s] | _ => [] end) evs.

(** The rules a transaction was offered to. *)
Definition offered (evs : list Event) : list TokenConfig :=
  flat_map (fun ev => match ev with EvVerifyTransaction _ c => [c] | _ => [] end) evs.

Definition receiptCalls (evs : list Event) : list (list byte) :=
  flat_map (fun ev => match ev with EvTransactionReceipt h => [h] | _ => [] end) evs.

Definition storeWrites (evs : list Event) : list Z :=
  flat_map (fun ev => match ev with EvUpdateSyncedBlockNumber _ n => [n] | _ => [] end) evs.

(** The errors with which [rpcPost] returned, attempt by attempt. *)
Definition postReturns (evs : list Event) : list (option error) :=
  flat_map (fun ev => match ev with EvRpcPostReturn _ e => [e] | _ => [] end) evs.

(** Some attempt returned an error on which [postSwapPost] asks for a retry. *)
Definition sawRetryError (evs : list Event) : bool :=
  existsb (fun e => match e with Some err => needRetry err | None => false end)
          (postReturns evs).

(** Events of the exchange with the swap server. *)
Definition isPostEvent (ev : Event) : bool :=
  match ev with
  | EvRPCPost _ _ _ | EvRpcPostReturn _ _ => true
  | _ => false
  end.

(** ** Example data *)

Definition ex_server : string := "http://127.0.0.1:11556/rpc".

Definition ex_refused : error :=
  errors_New
    "Post http://127.0.0.1:11556/rpc: dial tcp 127.0.0.1:11556: connect: connection refused".

Definition ex_scanner : ethSwapScanner := mkScanner false 3.

(** A chain client that knows no receipt, a store that accepts every write,
    and a swap server answering each call by [answer]. *)
Definition ex_env (answer : nat -> Value * option error) : Env :=
  mkEnv (fun _ _ => inr (errors_New "not found"))
        (fun n _ _ _ => answer n)
        (fun _ _ _ => None).

Definition ex_globals (tokens : list TokenConfig) : Globals :=
  mkGlobals "ETH" true 1000 0 100 false tokens.

(** The swap server refuses the connection on the first two calls and
    answers ["success"] from the third. *)
Definition ex_world_refused_twice : World :=
  mkWorld (ex_env (fun n => if (n <? 2)%nat then (VNil, Some ex_refused)
                            else (VString "success", None)))
          0 (ex_globals []).

Definition ex_bridge_swap : swapPost :=
  mkSwapPost "0x5b1c7a3f9e2d4c6b8a0f1e3d5c7b9a1f3e5d7c9b1a3f5e7d9c1b3a5f7e9d1c3b"
             "swap.Swapin" ex_server "" "USDT" "" "".

Definition ex_token : list byte :=
  common.FromHex "0x6b175474e89094c44da98b954eedeac495271d0f".
Definition ex_deposit : list byte :=
  common.FromHex "0x1111111254fb6c44bac0bed2854e76f90643097d".
Definition ex_sender : list byte :=
  common.FromHex "0x00000000219ab540356cbb839cbe05303d7705fa".

(** A swapin rule for the token, as a configuration file spells the
    addresses (with the mixed case of the checksum). *)
Definition ex_swapin_rule : TokenConfig :=
  mkTokenConfig "swapin" ex_server "" [] "DAI"
    "0x6B175474E89094C44Da98b954EedeAC495271d0F"
    "0x1111111254fb6c44bAC0beD2854e76F90643097d" "" "".

(** The [Transfer(sender, deposit, 100)] log of the token. *)
Definition ex_transfer_log : Log :=
  mkLog ex_token
    [transferLogTopic; common.BytesToHash ex_sender; common.BytesToHash ex_deposit]
    (Some (common.BytesToHash [x64])) false.

(** The call data of [transfer(deposit, 100)]. *)
Definition ex_transfer_input : list byte :=
  transferFuncHash ++ common.BytesToHash ex_deposit ++ common.BytesToHash [x64].

(** *** The checkpoint *)

(** The heights [from, from+1, ...] visited by [n] iterations of the
    loop [for h := from; h <= latest; h++]. *)
Fixpoint heightsFrom (from : Z) (n : nat) : list Z :=
  match n with
  | O => []
  | S n' => from :: heightsFrom (from + 1) n'
  end.

(** The world [w] with the checkpoint variables set to [number] and [count]. *)
Definition withCheckpoint (w : World) (number count : Z) : World :=
  mkWorld (env w) (clock w)
    (mkGlobals (chain (vars w)) (mongodbEnable (vars w)) number count
               (syncdCount2Mongodb (vars w)) (synced (vars w)) (Tokens (vars w))).

(** A world whose store is enabled, with the given checkpoint variables and
    threshold, and whose store accepts every write. *)
Definition ex_world_checkpoint (number count threshold : Z) : World :=
  mkWorld (ex_env (fun _ => (VNil, None))) 0
          (mkGlobals "ETH" true number count threshold false []).

(** *** The classifier *)

(** Events of the exchange with the chain client about the receipt of [h]. *)
Definition isReceiptEvent (h : list byte) (ev : Event) : bool :=
  match ev with
  | EvTransactionReceipt h' => bytes.Equal h' h
  | _ => false
  end.

(** The address [tx.to] is compared with first ([cmpTxTo]). *)
Definition expectedTo (c : TokenConfig) : string :=
  if IsRouterSwap c then RouterContract c
  else if IsNativeToken c then DepositAddress c
  else if negb (String.eqb (CallByContract c) "") then CallByContract c
  else TokenAddress c.

(** Some whitelist entry equals the address, letter case aside. *)
Definition inWhitelist (to : list byte) (c : TokenConfig) : bool :=
  existsb (fun whiteAddr => strings.EqualFold (common.Hex to) whiteAddr) (Whitelist c).

(** The topic set of the router sub-kind of a rule. *)
Definition routerTopicSet (c : TokenConfig) : list (list byte) :=
  if IsRouterERC20Swap c then
    [routerAnySwapOutTopic; routerAnySwapTradeTokensForTokensTopic;
     routerAnySwapTradeTokensForNativeTopic]
  else if IsRouterNFTSwap c then
    [logNFT721SwapOutTopic; logNFT1155SwapOutTopic; logNFT1155SwapOutBatchTopic]
  else if IsRouterAnycallSwap c then
    [logAnycallSwapOutTopic; logAnycallTransferSwapOutTopic]
  else [].

(** A log emitted by the router contract of the rule and not removed. *)
Definition isRouterLog (c : TokenConfig) (l : Log) : bool :=
  negb (Removed l) && strings.EqualFold (common.Hex (Address l)) (RouterContract c).

(** A router log whose first topic is in the topic set of the rule. *)
Definition isRouterSwapLog (c : TokenConfig) (l : Log) : bool :=
  isRouterLog c l
  && match Topics l with
     | t :: _ => existsb (bytes.Equal t) (routerTopicSet c)
     | [] => false
     end.

(** The indexes, counted from [i], of the logs that satisfy [p]. *)
Fixpoint indexesFrom (p : Log -> bool) (logs : list Log) (i : nat) : list nat :=
  match logs with
  | [] => []
  | l :: rest => (if p l then [i] else []) ++ indexesFrom p rest (S i)
  end.

(** The router record of log [i] of transaction [txid] under rule [c]. *)
Definition routerRecord (txid : string) (c : TokenConfig) (i : nat) : swapPost :=
  mkSwapPost txid "swap.RegisterRouterSwap" (SwapServer c) "" "" (ChainID c)
             (fmt.Sprintf_d i).

(** The bridge record of transaction [txid] under rule [c]. *)
Definition bridgeRecord (txid : string) (c : TokenConfig) : swapPost :=
  mkSwapPost txid
    (if negb (String.eqb (DepositAddress c) "") then "swap.Swapin" else "swap.Swapout")
    (SwapServer c) "" (PairID c) "" "".

(** Every router log has a first topic. *)
Definition routerLogsHaveTopic (c : TokenConfig) (logs : list Log) : bool :=
  forallb (fun l => negb (isRouterLog c l)
                    || match Topics l with [] => false | _ :: _ => true end) logs.

(** [checkTxToAddress] accepts the address: it is the expected one, or the
    rule is not a native-token rule and the address is whitelisted. *)
Definition toAccepted (to : list byte) (c : TokenConfig) : bool :=
  strings.EqualFold (common.Hex to) (expectedTo c)
  || (negb (IsNativeToken c) && inWhitelist to c).

(** [checkTxToAddress] fetches the receipt of an accepted transaction. *)
Definition receiptNeeded (scanner : ethSwapScanner) (to : list byte) (c : TokenConfig)
  : bool :=
  if strings.EqualFold (common.Hex to) (expectedTo c)
  then scanReceipt scanner || IsRouterSwap c
       || (negb (IsNativeToken c) && negb (String.eqb (CallByContract c) ""))
  else true.

(** What [checkTxToAddress] returns for the result of the receipt loop. *)
Definition acceptedWith (fetched : Outcome (option Receipt * option error))
  : Outcome (option Receipt * bool) :=
  match fetched with
  | Normal (receipt, None) => Normal (receipt, true)
  | Normal (_, Some _) => Normal (None, false)
  | Panic k => Panic k
  end.

(** A router log that [verifyAndPostRouterSwapTx] posts: its first topic
    passes the topic test of the code. *)
Definition isPostedRouterLog (c : TokenConfig) (l : Log) : bool :=
  isRouterLog c l
  && match Topics l with
     | t :: _ => routerTopicAccepted c t
     | [] => false
     end.

(** The claim that a transaction is offered to no further rule once a rule
    has matched, read on the events: after a record has reached the
    dispatcher, no rule is offered the transaction. *)
Definition noOfferAfterDispatch (evs : list Event) : Prop :=
  forall before s after,
    evs = before ++ EvPostSwapPost s :: after -> offered after = [].

(** *** Example transactions and rules *)

Definition ex_router : list byte :=
  common.FromHex "0x6b7a87899490ece95443e979ca9485cbe7e71522".

Definition ex_txhash : list byte :=
  common.FromHex "0x5b1c7a3f9e2d4c6b8a0f1e3d5c7b9a1f3e5d7c9b1a3f5e7d9c1b3a5f7e9d1c3b".

(** A swap server that answers every registration with success. *)
Definition ex_answer_success (n : nat) : Value * option error :=
  (VMap [("0", FString "success"); ("3", FString "success"); ("7", FString "success")],
   None).

(** A world with the given token table in which the chain client returns
    [receipt] for every transaction. *)
Definition ex_world (receipt : Receipt) (tokens : list TokenConfig) : World :=
  mkWorld (mkEnv (fun _ _ => inl receipt)
                 (fun n _ _ _ => ex_answer_success n)
                 (fun _ _ _ => None))
          0 (ex_globals tokens).

(** A router-nft rule, and a transaction to the router whose receipt holds
    one [NFT721SwapOut] log of the router. *)
Definition ex_nft_rule : TokenConfig :=
  mkTokenConfig "nftswap" ex_server "" [] "" "" "" "56"
    "0x6b7a87899490EcE95443e979cA9485CBE7E71522".

Definition ex_nft_receipt : Receipt :=
  mkReceipt 1 [mkLog ex_router [logNFT721SwapOutTopic; common.BytesToHash ex_token]
                     (Some []) false].

Definition ex_router_tx : Transaction := mkTransaction (Some ex_router) ex_txhash [].

(** A router-erc20 rule, and a receipt with [AnySwapOut] logs of the router
    at the indexes 3 and 7 among logs of the token. *)
Definition ex_erc20_router_rule : TokenConfig :=
  mkTokenConfig "routerswap" ex_server "" [] "" "" "" "56"
    "0x6b7a87899490EcE95443e979cA9485CBE7E71522".

Definition ex_anyswapout_log : Log :=
  mkLog ex_router [routerAnySwapOutTopic; common.BytesToHash ex_token] (Some []) false.

Definition ex_erc20_router_receipt : Receipt :=
  mkReceipt 1 [ex_transfer_log; ex_transfer_log; ex_transfer_log; ex_anyswapout_log;
               ex_transfer_log; ex_transfer_log; ex_transfer_log; ex_anyswapout_log].

(** Two native-token bridge rules with the same deposit address, and a
    transaction to that address. *)
Definition ex_native_rule (pairID : string) (whitelist : list string) : TokenConfig :=
  mkTokenConfig "swapin" ex_server "" whitelist pairID "native"
    "0x1111111254fb6c44bAC0beD2854e76F90643097d" "" "".

Definition ex_deposit_tx : Transaction := mkTransaction (Some ex_deposit) ex_txhash [].

(** The swapin rule of the token with the router address whitelisted. *)
Definition ex_swapin_rule_whitelist : TokenConfig :=
  mkTokenConfig "swapin" ex_server "" ["0x6b7a87899490EcE95443e979cA9485CBE7E71522"] "DAI"
    "0x6B175474E89094C44Da98b954EedeAC495271d0F"
    "0x1111111254fb6c44bAC0beD2854e76F90643097d" "" "".

Definition ex_transfer_receipt : Receipt := mkReceipt 1 [ex_transfer_log].

(* ================================================================= *)
(** ** Library facts *)

Lemma bytes_Equal_true (a b : list byte) : bytes.Equal a b = true <-> a = b.
Proof.
  revert b; induction a as [|x a IH]; intros [|y b]; simpl; split; intro H;
    try reflexivity; try discriminate.
  - apply andb_true_iff in H as [Hx Hab].
    apply Byte.byte_dec_bl in Hx. apply IH in Hab. now subst.
  - injection H as -> ->. apply andb_true_iff; split.
    + now apply Byte.byte_dec_lb.
    + now apply IH.
Qed.

Lemma bytes_Equal_false (a b : list byte) : bytes.Equal a b = false <-> a <> b.
Proof.
  split.
  - intros H E. apply bytes_Equal_true in E. congruence.
  - intro H. destruct (bytes.Equal a b) eqn:E; [|reflexivity].
    apply bytes_Equal_true in E. contradiction.
Qed.

Lemma setBytes_exact (n : nat) (b : list byte) :
  List.length b = n -> common.setBytes n b = b.
Proof.
  intro H. unfold common.setBytes. rewrite H, Nat.sub_diag. simpl.
  rewrite H, Nat.sub_diag. reflexivity.
Qed.

Lemma GetData_length (data : list byte) (start size : nat) :
  List.length (common.GetData data start size) = size.
Proof.
  unfold common.GetData, common.RightPadBytes.
  set (s := if (List.length data <? start)%nat then List.length data else start).
  set (e := if (List.length data <? s + size)%nat then List.length data else (s + size)%nat).
  assert (Hs : (s <= List.length data)%nat).
  { subst s. destruct (Nat.ltb_spec (List.length data) start); lia. }
  assert (He : (s <= e /\ e <= List.length data /\ e <= s + size)%nat).
  { subst e. destruct (Nat.ltb_spec (List.length data) (s + size)); lia. }
  assert (Hl : List.length (firstn (e - s) (skipn s data)) = (e - s)%nat).
  { rewrite length_firstn, length_skipn. lia. }
  destruct (Nat.leb_spec size (List.length (firstn (e - s) (skipn s data)))).
  - lia.
  - rewrite length_app, repeat_length. lia.
Qed.

Lemma GetData_nth (data : list byte) (start size i : nat) :
  (i < size)%nat ->
  nth i (common.GetData data start size) x00 = nth (start + i) data x00.
Proof.
  intro Hi. unfold common.GetData, common.RightPadBytes.
  set (s := if (List.length data <? start)%nat then List.length data else start).
  set (e := if (List.length data <? s + size)%nat then List.length data else (s + size)%nat).
  assert (Hs : (s <= List.length data)%nat).
  { subst s. destruct (Nat.ltb_spec (List.length data) start); lia. }
  assert (He : (s <= e /\ e <= List.length data /\ e <= s + size)%nat).
  { subst e. destruct (Nat.ltb_spec (List.length data) (s + size)); lia. }
  assert (Hl : List.length (firstn (e - s) (skipn s data)) = (e - s)%nat).
  { rewrite length_firstn, length_skipn. lia. }
  assert (Hin : forall j, (j < e - s)%nat ->
            nth j (firstn (e - s) (skipn s data)) x00 = nth (s + j) data x00).
  { intros j Hj. rewrite nth_firstn.
    destruct (Nat.ltb_spec j (e - s)); [|lia]. now rewrite nth_skipn. }
  assert (Hout : (e - s <= i)%nat -> nth (start + i) data x00 = x00).
  { intro Hle. apply nth_overflow.
    subst e s. destruct (Nat.ltb_spec (List.length data) start).
    - lia.
    - destruct (Nat.ltb_spec (List.length data) (start + size)); lia. }
  assert (Hst : (i < e - s)%nat -> (s + i = start + i)%nat).
  { intro Hlt. subst s. destruct (Nat.ltb_spec (List.length data) start); lia. }
  destruct (Nat.leb_spec size (List.length (firstn (e - s) (skipn s data)))).
  - rewrite Hin by lia. f_equal. apply Hst. lia.
  - destruct (Nat.lt_ge_cases i (e - s)).
    + rewrite app_nth1 by lia. rewrite Hin by lia. f_equal. now apply Hst.
    + rewrite app_nth2 by lia. rewrite Hout by lia.
      apply nth_repeat.
Qed.

(** The receiver read by [parseErc20SwapinTxInput] at [off] is the address
    in the bytes [off+12 .. off+32) of the call data. *)
Lemma BytesToAddress_GetData (input : list byte) (off : nat) :
  common.BytesToAddress (common.GetData input off 32) = wordAddress input off.
Proof.
  unfold common.BytesToAddress, common.setBytes, common.AddressLength, wordAddress.
  rewrite GetData_length. change (32 - 20)%nat with 12%nat.
  rewrite length_skipn, GetData_length.
  change (repeat x00 (20 - (32 - 12))) with (@nil byte). rewrite app_nil_l.
  apply nth_ext with (d := x00) (d' := x00).
  - rewrite length_skipn, GetData_length, length_map, length_seq. reflexivity.
  - rewrite length_skipn, GetData_length. intros i Hi.
    rewrite nth_skipn, GetData_nth by lia.
    set (f := fun i => nth (off + 12 + i) input x00).
    rewrite (nth_indep (map f (seq 0 20)) x00 (f 0%nat))
      by (rewrite length_map, length_seq; lia).
    rewrite map_nth, seq_nth by lia. subst f. simpl. f_equal. lia.
Qed.

(** Split a conjunction of cases and close each by arithmetic or by
    contradiction between the hypotheses. *)
Ltac split_cases :=
  repeat split; intros;
  repeat match goal with
         | H : _ /\ _ |- _ => destruct H
         | H : _ \/ _ |- _ => destruct H
         end;
  try lia; try reflexivity; try congruence; auto.

(* ================================================================= *)
(** ** Call-data verification of an ERC-20 swapin *)

(** C7.  Without a receipt, [parseErc20SwapinTxInput] succeeds exactly when
    the input has a selector and either the selector is [transfer] and the
    address in bytes [4,36) folds to the deposit address, or the selector is
    [transferFrom] and the address in bytes [36,68) does.  An input of fewer
    than four bytes is [ErrTxWithWrongInput], another selector is
    [ErrTxFuncHashMismatch], and a known selector with another receiver is
    [ErrTxWithWrongReceiver]. *)
Theorem parseErc20SwapinTxInput_spec (input : list byte) (depositAddress : string) :
  let sel := firstn 4 input in
  let receiverIs off :=
    strings.EqualFold (common.Hex (wordAddress input off)) depositAddress in
  (parseErc20SwapinTxInput input depositAddress = None <->
     (4 <= List.length input)%nat /\
     ((sel = transferFuncHash /\ receiverIs 4%nat = true) \/
      (sel = transferFromFuncHash /\ receiverIs 36%nat = true)))
  /\ ((List.length input < 4)%nat ->
      parseErc20SwapinTxInput input depositAddress = Some ErrTxWithWrongInput)
  /\ ((4 <= List.length input)%nat ->
      sel <> transferFuncHash -> sel <> transferFromFuncHash ->
      parseErc20SwapinTxInput input depositAddress = Some ErrTxFuncHashMismatch)
  /\ ((4 <= List.length input)%nat ->
      (sel = transferFuncHash /\ receiverIs 4%nat = false) \/
      (sel = transferFromFuncHash /\ receiverIs 36%nat = false) ->
      parseErc20SwapinTxInput input depositAddress = Some ErrTxWithWrongReceiver).
Proof.
  intros sel receiverIs.
  assert (Hne : transferFuncHash <> transferFromFuncHash) by (vm_compute; discriminate).
  unfold parseErc20SwapinTxInput.
  rewrite !BytesToAddress_GetData. fold sel. fold (receiverIs 4%nat) (receiverIs 36%nat).
  destruct (Nat.ltb_spec (List.length input) 4) as [Hlt | Hge].
  { split_cases. }
  destruct (bytes.Equal sel transferFuncHash) eqn:E1.
  { apply bytes_Equal_true in E1.
    destruct (receiverIs 4%nat) eqn:R; simpl; split_cases. }
  apply bytes_Equal_false in E1.
  destruct (bytes.Equal sel transferFromFuncHash) eqn:E2.
  { apply bytes_Equal_true in E2.
    destruct (receiverIs 36%nat) eqn:R; simpl; split_cases. }
  apply bytes_Equal_false in E2.
  split_cases.
Qed.

(** [transfer(deposit, 100)] is accepted for the rule of that deposit address. *)
Lemma parseErc20SwapinTxInput_spec_witness :
  parseErc20SwapinTxInput ex_transfer_input (DepositAddress ex_swapin_rule) = None.
Proof.
  apply (proj1 (parseErc20SwapinTxInput_spec ex_transfer_input
                  (DepositAddress ex_swapin_rule))).
  split; [vm_compute; lia|]. left. split; vm_compute; reflexivity.
Defined.

(* ================================================================= *)
(** ** Receipt verification of an ERC-20 swapin *)

Lemma getLogTopicByTxType_swapin (txType : string) :
  strings.ToLower txType = TxSwapin ->
  getLogTopicByTxType txType = (transferLogTopic, 3%nat).
Proof.
  intro H. unfold getLogTopicByTxType. rewrite H. reflexivity.
Qed.

Lemma nth_error_length3 (A : Type) (l : list A) :
  List.length l = 3%nat ->
  exists a b c, l = [a; b; c].
Proof.
  destruct l as [|a [|b [|c [|d l]]]]; simpl; try discriminate.
  intros _. now exists a, b, c.
Qed.

(** The loop of [parseErc20SwapinTxLogs], run with the [Transfer] topic and
    three topics, in closed form: it never panics, it succeeds when some
    transfer log carries the deposit receiver, and otherwise it tells a
    wrong receiver from a missing transfer by the flag and the logs seen. *)
Lemma parseErc20SwapinTxLogs_loop_closed (logs : list Log)
    (targetContract depositAddress : string) (seen : bool) :
  parseErc20SwapinTxLogs_loop logs targetContract depositAddress
    transferLogTopic 3 seen =
  if existsb (fun l => isTransferLog targetContract l && hasReceiver depositAddress l) logs
  then Normal None
  else if seen || existsb (isTransferLog targetContract) logs
       then Normal (Some ErrTxWithWrongReceiver)
       else Normal (Some ErrDepositLogNotFound).
Proof.
  revert seen. induction logs as [|rlog rest IH]; intro seen.
  - simpl. rewrite orb_false_r. reflexivity.
  - cbn [parseErc20SwapinTxLogs_loop existsb].
    unfold isTransferLog at 1 3, hasReceiver at 1.
    destruct (Removed rlog); [simpl; apply IH|].
    destruct (strings.EqualFold (common.Hex (Address rlog)) targetContract);
      [|simpl; apply IH].
    destruct (Nat.eqb_spec (List.length (Topics rlog)) 3) as [Hlen|Hlen];
      [|simpl; apply IH].
    destruct (Data rlog); [|simpl; apply IH].
    destruct (nth_error_length3 _ _ Hlen) as (t0 & t1 & t2 & ->).
    cbn [negb orb andb nth_error].
    destruct (bytes.Equal t0 transferLogTopic); [|simpl; apply IH].
    cbn [negb orb andb].
    destruct (strings.EqualFold (common.Hex (common.BytesToAddress t2)) depositAddress).
    + reflexivity.
    + cbn [orb]. rewrite IH. rewrite !orb_true_r. reflexivity.
Qed.

(** C5.  For a swapin rule and the logs of a receipt,
    [parseErc20SwapinTxLogs] returns nil exactly when some transfer log of
    the token (not removed, three topics headed by [Transfer], data not nil)
    has the deposit address in [topics[2]]; when transfer logs exist but
    none has that receiver it returns [ErrTxWithWrongReceiver], and when no
    transfer log exists it returns [ErrDepositLogNotFound]. *)
Theorem parseErc20SwapinTxLogs_spec (logs : list Log) (tokenCfg : TokenConfig) :
  strings.ToLower (TxType tokenCfg) = TxSwapin ->
  let transfer := isTransferLog (TokenAddress tokenCfg) in
  let deposit := hasReceiver (DepositAddress tokenCfg) in
  (parseErc20SwapinTxLogs logs tokenCfg = Normal None <->
     exists l, In l logs /\ transfer l = true /\ deposit l = true)
  /\ ((exists l, In l logs /\ transfer l = true) ->
      (forall l, In l logs -> transfer l = true -> deposit l = false) ->
      parseErc20SwapinTxLogs logs tokenCfg = Normal (Some ErrTxWithWrongReceiver))
  /\ ((forall l, In l logs -> transfer l = false) ->
      parseErc20SwapinTxLogs logs tokenCfg = Normal (Some ErrDepositLogNotFound)).
Proof.
  intros Htype transfer deposit.
  unfold parseErc20SwapinTxLogs.
  rewrite (getLogTopicByTxType_swapin _ Htype), parseErc20SwapinTxLogs_loop_closed.
  fold transfer deposit. cbn [orb].
  destruct (existsb (fun l => transfer l && deposit l) logs) eqn:Egood.
  - apply existsb_exists in Egood as (l & Hin & Hl).
    apply andb_true_iff in Hl as [Ht Hd].
    repeat split.
    + intros _. now exists l.
    + intros _ Hnone. specialize (Hnone l Hin Ht). congruence.
    + intro Hnone. specialize (Hnone l Hin). congruence.
  - assert (Hno : forall l, In l logs -> transfer l = true -> deposit l = false).
    { intros l Hin Ht. destruct (deposit l) eqn:Hd; [|reflexivity].
      assert (existsb (fun l => transfer l && deposit l) logs = true).
      { apply existsb_exists. exists l. now rewrite Ht, Hd. }
      congruence. }
    destruct (existsb transfer logs) eqn:Etr.
    + apply existsb_exists in Etr as (l & Hin & Ht).
      repeat split.
      * discriminate.
      * intros (l' & Hin' & Ht' & Hd'). specialize (Hno l' Hin' Ht'). congruence.
      * intro Hnone. specialize (Hnone l Hin). congruence.
    + repeat split.
      * discriminate.
      * intros (l' & Hin' & Ht' & Hd'). specialize (Hno l' Hin' Ht'). congruence.
      * intros (l' & Hin' & Ht') _.
        assert (existsb transfer logs = true) by (apply existsb_exists; now exists l').
        congruence.
Qed.

(** A receipt with the transfer to the deposit address passes. *)
Lemma parseErc20SwapinTxLogs_spec_witness :
  strings.ToLower (TxType ex_swapin_rule) = TxSwapin
  /\ parseErc20SwapinTxLogs [ex_transfer_log] ex_swapin_rule = Normal None.
Proof.
  split; [reflexivity|].
  apply (proj1 (parseErc20SwapinTxLogs_spec [ex_transfer_log] ex_swapin_rule eq_refl)).
  exists ex_transfer_log. split; [now left|]. split; vm_compute; reflexivity.
Defined.

(* ================================================================= *)
(** ** Runs and their events *)

Ltac break_match :=
  match goal with
  | |- context [match ?x with _ => _ end] => destruct x eqn:?
  end.

(** Unfold the monad and project the components of the resulting run. *)
Ltac run_simpl :=
  unfold bind, ret, emit, ask, lift, panic, getVars, setVars;
  cbn [outcome final events env clock vars fst snd negb andb].

Lemma bind_run {A B : Type} (m : M A) (k : A -> M B) (w : World) :
  bind m k w =
  match outcome (m w) with
  | Normal a =>
      mkRun (outcome (k a (final (m w)))) (final (k a (final (m w))))
            (events (m w) ++ events (k a (final (m w))))
  | Panic p => mkRun (Panic p) (final (m w)) (events (m w))
  end.
Proof. reflexivity. Qed.

Lemma sawRetryError_app (evs evs' : list Event) :
  sawRetryError (evs ++ evs') = sawRetryError evs || sawRetryError evs'.
Proof.
  unfold sawRetryError, postReturns. now rewrite flat_map_app, existsb_app.
Qed.

Lemma ringAdds_app (evs evs' : list Event) :
  ringAdds (evs ++ evs') = ringAdds evs ++ ringAdds evs'.
Proof. apply flat_map_app. Qed.

Lemma pendingInserts_app (evs evs' : list Event) :
  pendingInserts (evs ++ evs') = pendingInserts evs ++ pendingInserts evs'.
Proof. apply flat_map_app. Qed.

Lemma registeredInserts_app (evs evs' : list Event) :
  registeredInserts (evs ++ evs') = registeredInserts evs ++ registeredInserts evs'.
Proof. apply flat_map_app. Qed.

Lemma dispatched_app (evs evs' : list Event) :
  dispatched (evs ++ evs') = dispatched evs ++ dispatched evs'.
Proof. apply flat_map_app. Qed.

Lemma offered_app (evs evs' : list Event) :
  offered (evs ++ evs') = offered evs ++ offered evs'.
Proof. apply flat_map_app. Qed.

Lemma receiptCalls_app (evs evs' : list Event) :
  receiptCalls (evs ++ evs') = receiptCalls evs ++ receiptCalls evs'.
Proof. apply flat_map_app. Qed.

Lemma storeWrites_app (evs evs' : list Event) :
  storeWrites (evs ++ evs') = storeWrites evs ++ storeWrites evs'.
Proof. apply flat_map_app. Qed.

Lemma postReturns_app (evs evs' : list Event) :
  postReturns (evs ++ evs') = postReturns evs ++ postReturns evs'.
Proof. apply flat_map_app. Qed.

(** Read a trace given as an append of parts, part by part. *)
Ltac split_events :=
  rewrite ?sawRetryError_app, ?ringAdds_app, ?pendingInserts_app,
    ?registeredInserts_app, ?dispatched_app, ?offered_app, ?receiptCalls_app,
    ?storeWrites_app, ?postReturns_app.

Lemma forallb_isPostEvent_app (evs evs' : list Event) :
  forallb isPostEvent evs = true -> forallb isPostEvent evs' = true ->
  forallb isPostEvent (evs ++ evs') = true.
Proof. intros H H'. now rewrite forallb_app, H, H'. Qed.

(** The exchange with the swap server writes to no queue, dispatches no
    record, offers no rule, fetches no receipt and writes no checkpoint. *)
Lemma isPostEvent_silent (evs : list Event) :
  forallb isPostEvent evs = true ->
  ringAdds evs = [] /\ pendingInserts evs = [] /\ registeredInserts evs = []
  /\ dispatched evs = [] /\ offered evs = [] /\ receiptCalls evs = []
  /\ storeWrites evs = [].
Proof.
  induction evs as [|ev evs IH]; [now repeat split|].
  cbn [forallb]. intro H. apply andb_true_iff in H as [Hev Hevs].
  specialize (IH Hevs). destruct IH as (? & ? & ? & ? & ? & ? & ?).
  unfold ringAdds, pendingInserts, registeredInserts, dispatched, offered,
    receiptCalls, storeWrites in *.
  destruct ev; try discriminate; cbn [flat_map app]; now repeat split.
Qed.

(* ================================================================= *)
(** ** The dispatcher *)

Lemma rpcPost_rangeResultMap_panic (entries : list (string * Field)) (err : error)
    (k : PanicKind) :
  rpcPost_rangeResultMap entries err = Panic k -> k = TypeAssertion.
Proof.
  induction entries as [|[key [value|]] rest IH]; cbn [rpcPost_rangeResultMap].
  - discriminate.
  - destruct (_ || _); [discriminate | exact IH].
  - congruence.
Qed.

Lemma rpcPost_body_run (swap : swapPost) (w : World) :
  let r := rpcPost_body swap w in
  forallb isPostEvent (events r) = true
  /\ postReturns (events r) = []
  /\ vars (final r) = vars w
  /\ env (final r) = env w
  /\ (forall k, outcome r = Panic k -> k = TypeAssertion).
Proof.
  unfold rpcPost_body.
  repeat (first [break_match | progress run_simpl]);
    repeat split; try reflexivity; try discriminate;
    intros k Hk; now apply rpcPost_rangeResultMap_panic in Hk.
Qed.

(** One attempt: its events are those of the exchange with the server, and
    a return is marked with the error returned. *)
Lemma rpcPost_run (swap : swapPost) (w : World) :
  let r := rpcPost swap w in
  forallb isPostEvent (events r) = true
  /\ vars (final r) = vars w
  /\ env (final r) = env w
  /\ match outcome r with
     | Normal err => postReturns (events r) = [err]
     | Panic k => k = TypeAssertion /\ postReturns (events r) = []
     end.
Proof.
  destruct (rpcPost_body_run swap w) as (Hev & Hret & Hvars & Henv & Hpanic).
  unfold rpcPost. rewrite bind_run.
  destruct (outcome (rpcPost_body swap w)) as [err|k] eqn:Hout.
  - run_simpl. repeat split; auto.
    + rewrite forallb_app, Hev. reflexivity.
    + unfold postReturns in *. rewrite flat_map_app, Hret. reflexivity.
  - cbn [outcome final events]. repeat split; auto.
Qed.

(** The retry loop: the flags it returns are the flags it was given, raised
    when some attempt returned an error that asks for a retry. *)
Lemma postSwapPost_loop_run (n : nat) (swap : swapPost) (needCached needPending : bool)
    (w : World) :
  let r := postSwapPost_loop n swap needCached needPending w in
  forallb isPostEvent (events r) = true
  /\ vars (final r) = vars w
  /\ match outcome r with
     | Normal (c, p) =>
         c = needCached || sawRetryError (events r)
         /\ p = needPending || sawRetryError (events r)
     | Panic k => k = TypeAssertion
     end.
Proof.
  revert needCached needPending w.
  induction n as [|n IH]; intros c p w; cbn [postSwapPost_loop].
  - run_simpl. cbn. now rewrite !orb_false_r.
  - rewrite bind_run.
    destruct (rpcPost_run swap w) as (Hev & Hvars & _ & Hout).
    destruct (outcome (rpcPost swap w)) as [[e|]|k].
    + assert (Hsaw : sawRetryError (events (rpcPost swap w)) = needRetry e).
      { unfold sawRetryError. rewrite Hout. cbn. now rewrite orb_false_r. }
      destruct (needRetry e) eqn:Hretry.
      * specialize (IH true true (final (rpcPost swap w))).
        cbn zeta in IH. destruct IH as (Hev' & Hvars' & Hout').
        cbn [outcome final events]. repeat split.
        -- now apply forallb_isPostEvent_app.
        -- congruence.
        -- destruct (outcome _) as [[c' p']|k']; [|assumption].
           rewrite sawRetryError_app, Hsaw. destruct Hout' as [-> ->].
           now rewrite !orb_true_r.
      * specialize (IH c p (final (rpcPost swap w))).
        cbn zeta in IH. destruct IH as (Hev' & Hvars' & Hout').
        cbn [outcome final events]. repeat split.
        -- now apply forallb_isPostEvent_app.
        -- congruence.
        -- destruct (outcome _) as [[c' p']|k']; [|assumption].
           rewrite sawRetryError_app, Hsaw. destruct Hout' as [-> ->].
           now split.
    + run_simpl. rewrite app_nil_r. repeat split; auto.
      * unfold sawRetryError. rewrite Hout. cbn. now rewrite orb_false_r.
      * unfold sawRetryError. rewrite Hout. cbn. now rewrite orb_false_r.
    + cbn [outcome final events]. repeat split; auto. now destruct Hout.
Qed.

(** A successful attempt ends the retry loop, which then returns. *)
Lemma postSwapPost_loop_success (n : nat) (swap : swapPost) (needCached needPending : bool)
    (w : World) :
  In None (postReturns (events (postSwapPost_loop n swap needCached needPending w))) ->
  exists flags, outcome (postSwapPost_loop n swap needCached needPending w) = Normal flags.
Proof.
  revert needCached needPending w.
  induction n as [|n IH]; intros c p w; cbn [postSwapPost_loop].
  - run_simpl. intros [].
  - rewrite bind_run.
    destruct (rpcPost_run swap w) as (_ & _ & _ & Hout).
    destruct (outcome (rpcPost swap w)) as [[e|]|k].
    + destruct (needRetry e); cbn [outcome final events]; split_events;
        rewrite Hout; intro Hin; apply in_app_or in Hin as [Hin|Hin];
        try (destruct Hin as [Hin|[]]; discriminate); now apply IH in Hin.
    + run_simpl. intros _. now eexists.
    + cbn [outcome final events]. destruct Hout as [_ ->]. intros [].
Qed.

(** Where one call of [postSwapPost] writes the record.  The call marks one
    dispatch and neither offers a rule, fetches a receipt nor writes the
    checkpoint.  When it returns and some attempt asked for a retry, the
    record went to the retry ring and (with the store enabled) to the
    pending collection; when it returns and no attempt did, the record went
    (with the store enabled) to the registered collection only.  A panic
    inside an attempt leaves all three untouched. *)
Lemma postSwapPost_destinations (scanner : ethSwapScanner) (swap : swapPost) (w : World) :
  let r := postSwapPost scanner swap w in
  let evs := events r in
  let ms := toMgoSwap swap (chain (vars w)) in
  dispatched evs = [swap] /\ offered evs = [] /\ receiptCalls evs = []
  /\ storeWrites evs = [] /\ vars (final r) = vars w
  /\ match outcome r with
     | Normal _ =>
         if sawRetryError evs
         then ringAdds evs = [swap]
              /\ pendingInserts evs = (if mongodbEnable (vars w) then [ms] else [])
              /\ registeredInserts evs = []
         else ringAdds evs = []
              /\ pendingInserts evs = []
              /\ registeredInserts evs = (if mongodbEnable (vars w) then [ms] else [])
     | Panic k =>
         k = TypeAssertion
         /\ ringAdds evs = [] /\ pendingInserts evs = [] /\ registeredInserts evs = []
     end.
Proof.
  cbv zeta.
  unfold postSwapPost. rewrite !bind_run. cbn [emit outcome final events].
  destruct (postSwapPost_loop_run (Z.to_nat (rpcRetryCount scanner)) swap false false w)
    as (Hev & Hvars & Hout).
  destruct (isPostEvent_silent _ Hev) as (Hr & Hp & Hg & Hd & Ho & Hc & Hs).
  set (loop := postSwapPost_loop _ _ _ _ w) in *.
  destruct (outcome loop) as [[c p]|k].
  - cbn [orb] in Hout. destruct Hout as [-> ->].
    unfold addMongodbSwapPendingPost, addMongodbSwapPost.
    destruct (sawRetryError (events loop)) eqn:Hsaw;
      run_simpl; rewrite ?Hvars;
      destruct (mongodbEnable (vars w)) eqn:Hen;
      run_simpl; rewrite ?Hvars.
    all: split_events.
    all: rewrite ?Hr, ?Hp, ?Hg, ?Hd, ?Ho, ?Hc, ?Hs, ?Hsaw.
    all: cbn.
    all: repeat split; reflexivity.
  - cbn [outcome final events]. split_events.
    rewrite ?Hr, ?Hp, ?Hg, ?Hd, ?Ho, ?Hc, ?Hs. cbn. repeat split; auto.
Qed.

(** [postSwapPost] returns exactly when its retry loop does, and the
    returns of [rpcPost] it marks are those of the loop. *)
Lemma postSwapPost_loop_outcome (scanner : ethSwapScanner) (swap : swapPost) (w : World) :
  let loop := postSwapPost_loop (Z.to_nat (rpcRetryCount scanner)) swap false false w in
  outcome (postSwapPost scanner swap w) =
    match outcome loop with
    | Normal _ => Normal tt
    | Panic k => Panic k
    end
  /\ postReturns (events (postSwapPost scanner swap w)) = postReturns (events loop).
Proof.
  cbv zeta.
  unfold postSwapPost. rewrite !bind_run. cbn [emit outcome final events].
  set (loop := postSwapPost_loop _ _ _ _ w) in *.
  destruct (outcome loop) as [[c p]|k].
  - unfold addMongodbSwapPendingPost, addMongodbSwapPost.
    destruct c, p; run_simpl; destruct (mongodbEnable (vars (final loop)));
      run_simpl; split_events; cbn; now rewrite ?app_nil_r.
  - cbn [outcome final events]. split; [reflexivity|].
    split_events. reflexivity.
Qed.

(** C9.  One call of [postSwapPost] writes the record to one class of
    destinations.  When the call returns and an attempt returned an error
    that asks for a retry, the record is added to the retry ring and, the
    store being enabled, inserted into the pending collection, and nothing
    is inserted into the registered collection; when it returns and no
    attempt did, the record is inserted, the store being enabled, into the
    registered collection and nowhere else.  A call stopped by a panic
    writes nowhere.  In no case does one call insert into both the pending
    and the registered collection. *)
Theorem postSwapPost_one_destination_class
    (scanner : ethSwapScanner) (swap : swapPost) (w : World) :
  let r := postSwapPost scanner swap w in
  let evs := events r in
  let ms := toMgoSwap swap (chain (vars w)) in
  match outcome r with
  | Normal _ =>
      if sawRetryError evs
      then ringAdds evs = [swap]
           /\ pendingInserts evs = (if mongodbEnable (vars w) then [ms] else [])
           /\ registeredInserts evs = []
      else ringAdds evs = []
           /\ pendingInserts evs = []
           /\ registeredInserts evs = (if mongodbEnable (vars w) then [ms] else [])
  | Panic _ =>
      ringAdds evs = [] /\ pendingInserts evs = [] /\ registeredInserts evs = []
  end
  /\ (pendingInserts evs = [] \/ registeredInserts evs = []).
Proof.
  intros r evs ms.
  destruct (postSwapPost_destinations scanner swap w) as (_ & _ & _ & _ & _ & H).
  fold r evs ms in H.
  destruct (outcome r); [destruct (sawRetryError evs)|]; intuition.
Qed.

(** C1 (what the code does).  When, within one call of [postSwapPost], an
    attempt returned an error that asks for a retry and a later attempt
    succeeded, the call returns having added the record to the retry ring
    and, the store being enabled, inserted it into the pending collection;
    it inserts nothing into the registered collection. *)
Theorem postSwapPost_retry_then_success
    (scanner : ethSwapScanner) (swap : swapPost) (w : World) :
  let r := postSwapPost scanner swap w in
  let evs := events r in
  sawRetryError evs = true ->
  In None (postReturns evs) ->
  outcome r = Normal tt
  /\ ringAdds evs = [swap]
  /\ pendingInserts evs =
       (if mongodbEnable (vars w) then [toMgoSwap swap (chain (vars w))] else [])
  /\ registeredInserts evs = [].
Proof.
  intros r evs Hsaw Hnil.
  destruct (postSwapPost_loop_outcome scanner swap w) as [Hout Hret].
  fold r in Hout. fold r evs in Hret. rewrite Hret in Hnil.
  apply postSwapPost_loop_success in Hnil as [flags Hloop].
  rewrite Hloop in Hout.
  destruct (postSwapPost_destinations scanner swap w) as (_ & _ & _ & _ & _ & H).
  fold r evs in H. rewrite Hout, Hsaw in H. now split.
Qed.

(** The server refuses the connection twice and accepts the third attempt:
    the record is in the retry ring and in the pending collection, and not
    in the registered collection. *)
Lemma postSwapPost_retry_then_success_witness :
  let r := postSwapPost ex_scanner ex_bridge_swap ex_world_refused_twice in
  postReturns (events r) = [Some ex_refused; Some ex_refused; None]
  /\ sawRetryError (events r) = true
  /\ In None (postReturns (events r))
  /\ outcome r = Normal tt
  /\ ringAdds (events r) = [ex_bridge_swap]
  /\ pendingInserts (events r) = [toMgoSwap ex_bridge_swap "ETH"]
  /\ registeredInserts (events r) = [].
Proof.
  assert (Hret : postReturns (events (postSwapPost ex_scanner ex_bridge_swap
                                        ex_world_refused_twice))
                 = [Some ex_refused; Some ex_refused; None])
    by (vm_compute; reflexivity).
  assert (Hsaw : sawRetryError (events (postSwapPost ex_scanner ex_bridge_swap
                                          ex_world_refused_twice)) = true)
    by (vm_compute; reflexivity).
  assert (Hnil : In None (postReturns (events (postSwapPost ex_scanner ex_bridge_swap
                                                 ex_world_refused_twice))))
    by (rewrite Hret; simpl; auto).
  cbv zeta. split; [exact Hret|]. split; [exact Hsaw|]. split; [exact Hnil|].
  exact (postSwapPost_retry_then_success ex_scanner ex_bridge_swap
           ex_world_refused_twice Hsaw Hnil).
Defined.

(* ================================================================= *)
(** ** The sync-height checkpoint *)

Local Open Scope Z_scope.

Lemma uint64_small (z : Z) : 0 <= z < 2 ^ 64 -> uint64 z = z.
Proof. intro H. unfold uint64. now apply Z.mod_small. Qed.

(** One call of [updateSyncdBlockNumber], in closed form. *)
Lemma updateSyncdBlockNumber_run (number : Z) (w : World) :
  let g := vars w in
  let hit := number =? uint64 (syncedNumber g + 1) in
  let number' := if hit then number else syncedNumber g in
  let count1 := if hit then uint64 (syncedCount g + 1) else syncedCount g in
  let flush := syncdCount2Mongodb g <=? count1 in
  let answer := UpdateSyncedBlockNumber (env w) (clock w) (chain g) number' in
  let r := updateSyncdBlockNumber number w in
  outcome r = Normal tt
  /\ events r = (if flush then [EvUpdateSyncedBlockNumber (chain g) number'] else [])
  /\ final r =
     mkWorld (env w) (if flush then S (clock w) else clock w)
       (mkGlobals (chain g) (mongodbEnable g) number'
          (if flush then match answer with None => 0 | Some _ => count1 end else count1)
          (syncdCount2Mongodb g) (if flush then true else synced g) (Tokens g)).
Proof.
  cbv zeta. unfold updateSyncdBlockNumber.
  destruct w as [e c g]. run_simpl.
  destruct (number =? uint64 (syncedNumber g + 1)) eqn:Hhit;
    cbn [chain mongodbEnable syncedNumber syncedCount syncdCount2Mongodb synced Tokens];
    match goal with
    | |- context [(?a <=? ?b)] => destruct (a <=? b)
    end;
    run_simpl;
    cbn [chain mongodbEnable syncedNumber syncedCount syncdCount2Mongodb synced Tokens];
    try match goal with
    | |- context [UpdateSyncedBlockNumber ?a ?b ?c ?d] =>
        destruct (UpdateSyncedBlockNumber a b c d)
    end;
    run_simpl;
    cbn [chain mongodbEnable syncedNumber syncedCount syncdCount2Mongodb synced Tokens];
    repeat split; try reflexivity; destruct g; reflexivity.
Qed.

Lemma scanLoop_checkpoints_cons (h : Z) (hs : list Z) (w : World) :
  mongodbEnable (vars w) = true ->
  scanLoop_checkpoints (h :: hs) w =
  let r := updateSyncdBlockNumber h w in
  let r' := scanLoop_checkpoints hs (final r) in
  mkRun (outcome r') (final r') (events r ++ events r').
Proof.
  intro Hen. cbn [scanLoop_checkpoints]. rewrite bind_run.
  cbn [getVars outcome final events]. rewrite Hen, bind_run.
  destruct (updateSyncdBlockNumber_run h w) as (Hout & _).
  rewrite Hout. reflexivity.
Qed.

(** Contiguous heights below the threshold: every call advances the
    checkpoint and the counter by one, and nothing is written. *)
Lemma scanLoop_checkpoints_quiet (n : nat) (w : World) :
  let g := vars w in
  mongodbEnable g = true ->
  0 <= syncedNumber g -> syncedNumber g + Z.of_nat n < 2 ^ 64 ->
  0 <= syncedCount g ->
  syncedCount g + Z.of_nat n < syncdCount2Mongodb g ->
  syncdCount2Mongodb g < 2 ^ 64 ->
  scanLoop_checkpoints (heightsFrom (syncedNumber g + 1) n) w =
  mkRun (Normal tt)
        (match n with
         | O => w
         | S _ => withCheckpoint w (syncedNumber g + Z.of_nat n)
                                   (syncedCount g + Z.of_nat n)
         end) [].
Proof.
  revert w. induction n as [|n IH]; intros w g Hen Hs0 Hs1 Hc0 Hc1 HT.
  - reflexivity.
  - cbn [heightsFrom]. rewrite scanLoop_checkpoints_cons by assumption.
    destruct (updateSyncdBlockNumber_run (syncedNumber g + 1) w) as (Hout & Hev & Hfin).
    fold g in Hout, Hev, Hfin.
    rewrite (uint64_small (syncedNumber g + 1)) in * by lia.
    rewrite Z.eqb_refl in *.
    rewrite (uint64_small (syncedCount g + 1)) in * by lia.
    assert (Hq : (syncdCount2Mongodb g <=? syncedCount g + 1) = false)
      by (apply Z.leb_gt; lia).
    rewrite Hq in *. cbv zeta. rewrite Hev, Hfin. cbn [app].
    set (w1 := mkWorld _ _ _).
    specialize (IH w1). cbn zeta in IH. subst w1. cbn [vars syncedNumber syncedCount
      syncdCount2Mongodb mongodbEnable] in IH.
    rewrite IH by (try assumption; lia).
    cbn [outcome final events]. f_equal.
    destruct n as [|n]; unfold withCheckpoint; cbn [env clock vars chain mongodbEnable
      syncedNumber syncedCount syncdCount2Mongodb synced Tokens]; f_equal; f_equal; lia.
Qed.

(** Contiguous heights up to the threshold: the call that brings the counter
    to the threshold is the only one that writes to the store, and it writes
    the height reached; the counter is zero afterwards when the store
    accepted the write, and stays at the threshold when it did not. *)
Lemma scanLoop_checkpoints_flush (n : nat) (w : World) :
  let g := vars w in
  let top := syncedNumber g + Z.of_nat n + 1 in
  mongodbEnable g = true ->
  0 <= syncedNumber g -> top < 2 ^ 64 ->
  0 <= syncedCount g ->
  syncedCount g + Z.of_nat n + 1 = syncdCount2Mongodb g ->
  syncdCount2Mongodb g < 2 ^ 64 ->
  let r := scanLoop_checkpoints (heightsFrom (syncedNumber g + 1) (S n)) w in
  outcome r = Normal tt
  /\ events r = [EvUpdateSyncedBlockNumber (chain g) top]
  /\ syncedNumber (vars (final r)) = top
  /\ syncedCount (vars (final r)) =
     match UpdateSyncedBlockNumber (env w) (clock w) (chain g) top with
     | None => 0
     | Some _ => syncdCount2Mongodb g
     end.
Proof.
  revert w. induction n as [|n IH]; intros w g top Hen Hs0 Hs1 Hc0 Hc1 HT r.
  - subst r top. cbn [heightsFrom]. rewrite scanLoop_checkpoints_cons by assumption.
    destruct (updateSyncdBlockNumber_run (syncedNumber g + 1) w) as (Hout & Hev & Hfin).
    fold g in Hout, Hev, Hfin.
    rewrite (uint64_small (syncedNumber g + 1)) in * by lia.
    rewrite Z.eqb_refl in *.
    rewrite (uint64_small (syncedCount g + 1)) in * by lia.
    assert (Hq : (syncdCount2Mongodb g <=? syncedCount g + 1) = true)
      by (apply Z.leb_le; cbn in Hc1; lia).
    rewrite Hq in *. cbv zeta. cbn [scanLoop_checkpoints]. run_simpl.
    rewrite Hev, Hfin. cbn [vars syncedNumber syncedCount].
    replace (syncedNumber g + Z.of_nat 0 + 1) with (syncedNumber g + 1) by lia.
    repeat split.
    destruct (UpdateSyncedBlockNumber _ _ _ _); [cbn in Hc1; lia | reflexivity].
  - subst r. cbn [heightsFrom]. rewrite scanLoop_checkpoints_cons by assumption.
    destruct (updateSyncdBlockNumber_run (syncedNumber g + 1) w) as (Hout & Hev & Hfin).
    fold g in Hout, Hev, Hfin.
    rewrite (uint64_small (syncedNumber g + 1)) in * by lia.
    rewrite Z.eqb_refl in *.
    rewrite (uint64_small (syncedCount g + 1)) in * by lia.
    assert (Hq : (syncdCount2Mongodb g <=? syncedCount g + 1) = false)
      by (apply Z.leb_gt; lia).
    rewrite Hq in *. cbv zeta. rewrite Hev, Hfin. cbn [app].
    set (w1 := mkWorld _ _ _).
    specialize (IH w1). cbn zeta in IH. subst w1.
    cbn [vars syncedNumber syncedCount syncdCount2Mongodb mongodbEnable chain env clock] in IH.
    cbn [heightsFrom] in IH.
    destruct IH as (Ho & He & Hn & Hc); try assumption; try lia.
    cbn [outcome final events].
    replace top with (syncedNumber g + 1 + Z.of_nat n + 1) by (subst top; lia).
    repeat split; assumption.
Qed.

(** C6.  [syncedNumber] changes only in a call for the height
    [syncedNumber + 1], which it then takes.  A call writes to the store
    exactly when the counter, after its increment, has reached
    [syncdCount2Mongodb]: as long as the counter was below the threshold
    this is the call for the next height that brings it to the threshold.
    The value written is the checkpoint, and once the store has accepted the
    write the counter is zero; without a write the counter keeps its value.
    Starting from checkpoint 1000 with the counter at zero and a threshold
    of 100, the heights 1001..1100 produce one store write, of 1100, and the
    accepted write leaves the counter at zero. *)
Theorem checkpoint_update_rule :
  (forall (number : Z) (w : World),
     let g := vars w in
     let r := updateSyncdBlockNumber number w in
     let g' := vars (final r) in
     let next := number =? uint64 (syncedNumber g + 1) in
     let count1 := if next then uint64 (syncedCount g + 1) else syncedCount g in
     let answer := UpdateSyncedBlockNumber (env w) (clock w) (chain g) (syncedNumber g') in
     (syncedNumber g' <> syncedNumber g -> number = uint64 (syncedNumber g + 1))
     /\ (number = uint64 (syncedNumber g + 1) -> syncedNumber g' = number)
     /\ storeWrites (events r) =
          (if syncdCount2Mongodb g <=? count1 then [syncedNumber g'] else [])
     /\ (0 <= syncedCount g < syncdCount2Mongodb g -> syncdCount2Mongodb g < 2 ^ 64 ->
         (storeWrites (events r) <> [] <->
          number = uint64 (syncedNumber g + 1)
          /\ syncedCount g + 1 = syncdCount2Mongodb g))
     /\ (storeWrites (events r) <> [] -> answer = None -> syncedCount g' = 0)
     /\ (storeWrites (events r) = [] -> syncedCount g' = count1))
  /\ (forall w : World,
       let g := vars w in
       let r := scanLoop_checkpoints (heightsFrom 1001 100) w in
       mongodbEnable g = true ->
       syncedNumber g = 1000 -> syncedCount g = 0 -> syncdCount2Mongodb g = 100 ->
       storeWrites (events r) = [1100]
       /\ syncedNumber (vars (final r)) = 1100
       /\ (UpdateSyncedBlockNumber (env w) (clock w) (chain g) 1100 = None ->
           syncedCount (vars (final r)) = 0)).
Proof.
  split.
  - intros number w g r g' next count1 answer.
    destruct (updateSyncdBlockNumber_run number w) as (_ & Hev & Hfin).
    fold g r next count1 in Hev, Hfin.
    assert (Hnum : syncedNumber g' = if next then number else syncedNumber g)
      by (subst g'; rewrite Hfin; reflexivity).
    assert (Hcnt : syncedCount g' =
                   if syncdCount2Mongodb g <=? count1
                   then match answer with None => 0 | Some _ => count1 end
                   else count1).
    { subst g' answer. rewrite Hfin. cbn [vars syncedCount syncedNumber]. reflexivity. }
    assert (Hw : storeWrites (events r) =
                 if syncdCount2Mongodb g <=? count1 then [syncedNumber g'] else []).
    { rewrite Hev, Hnum. now destruct (syncdCount2Mongodb g <=? count1). }
    repeat split.
    + intro Hne. rewrite Hnum in Hne. subst next.
      destruct (Z.eqb_spec number (uint64 (syncedNumber g + 1))); congruence.
    + intro Heq. rewrite Hnum. subst next.
      destruct (Z.eqb_spec number (uint64 (syncedNumber g + 1))); congruence.
    + exact Hw.
    + rewrite Hw in H1. subst count1 next.
      destruct (Z.eqb_spec number (uint64 (syncedNumber g + 1))); [assumption|].
      destruct (Z.leb_spec (syncdCount2Mongodb g) (syncedCount g)); [lia|congruence].
    + rewrite Hw in H1. subst count1 next.
      destruct (Z.eqb_spec number (uint64 (syncedNumber g + 1))).
      * rewrite uint64_small in H1 by lia.
        destruct (Z.leb_spec (syncdCount2Mongodb g) (syncedCount g + 1)); [lia|congruence].
      * destruct (Z.leb_spec (syncdCount2Mongodb g) (syncedCount g)); [lia|congruence].
    + intros [Hnext Hreach]. rewrite Hw. subst count1 next.
      rewrite <- Hnext, Z.eqb_refl, uint64_small by lia.
      destruct (Z.leb_spec (syncdCount2Mongodb g) (syncedCount g + 1)); [discriminate|lia].
    + intros Hne Hans. rewrite Hcnt, Hans. rewrite Hw in Hne.
      destruct (syncdCount2Mongodb g <=? count1); congruence.
    + intros He. rewrite Hcnt. rewrite Hw in He.
      destruct (syncdCount2Mongodb g <=? count1); [discriminate|reflexivity].
  - intros w g r Hen Hs Hc HT.
    destruct (scanLoop_checkpoints_flush 99 w) as (_ & Hev & Hn & Hcnt);
      fold g; rewrite ?Hs, ?Hc, ?HT; try lia; try assumption.
    fold g in Hev, Hn, Hcnt. rewrite Hs, HT in *.
    change (1000 + 1) with 1001 in *. change (1000 + Z.of_nat 99 + 1) with 1100 in *.
    fold r in Hev, Hn, Hcnt.
    repeat split.
    + rewrite Hev. reflexivity.
    + exact Hn.
    + intro Hans. rewrite Hcnt, Hans. reflexivity.
Qed.

(** The scenario on a store that accepts every write. *)
Lemma checkpoint_update_rule_witness :
  let w := ex_world_checkpoint 1000 0 100 in
  let r := scanLoop_checkpoints (heightsFrom 1001 100) w in
  storeWrites (events r) = [1100]
  /\ syncedNumber (vars (final r)) = 1100
  /\ syncedCount (vars (final r)) = 0.
Proof.
  destruct (proj2 checkpoint_update_rule (ex_world_checkpoint 1000 0 100)
              eq_refl eq_refl eq_refl eq_refl) as (Hw & Hn & Hc).
  split; [exact Hw | split; [exact Hn | exact (Hc eq_refl)]].
Defined.

Local Close Scope Z_scope.

(* ================================================================= *)
(** ** The classifier *)

Lemma bytes_Equal_refl (a : list byte) : bytes.Equal a a = true.
Proof. now apply bytes_Equal_true. Qed.

(** The exchange with the chain client writes to no queue, dispatches no
    record, offers no rule and asks the swap server nothing. *)
Lemma isReceiptEvent_silent (h : list byte) (evs : list Event) :
  forallb (isReceiptEvent h) evs = true ->
  ringAdds evs = [] /\ pendingInserts evs = [] /\ registeredInserts evs = []
  /\ dispatched evs = [] /\ offered evs = [] /\ storeWrites evs = []
  /\ postReturns evs = [].
Proof.
  induction evs as [|ev evs IH]; [now repeat split|].
  cbn [forallb]. intro H. apply andb_true_iff in H as [Hev Hevs].
  specialize (IH Hevs). destruct IH as (? & ? & ? & ? & ? & ? & ?).
  unfold ringAdds, pendingInserts, registeredInserts, dispatched, offered,
    storeWrites, postReturns in *.
  destruct ev; try discriminate; cbn [flat_map app]; now repeat split.
Qed.

(** The receipt loop: it returns, with either a receipt whose status is 1
    and no error, or no receipt; it talks to the chain client only, at
    least once when an attempt is left; and a first answer with status 1
    is the receipt returned. *)
Lemma loopGetTxReceipt_from_run (n : nat) (h : list byte) (err : option error) (w : World) :
  let r := loopGetTxReceipt_from n h err w in
  forallb (isReceiptEvent h) (events r) = true
  /\ vars (final r) = vars w
  /\ (exists res, outcome r = Normal res
                  /\ match res with
                     | (Some rc, None) => Status rc = 1%Z
                     | (Some _, Some _) => False
                     | (None, e) => n = 0%nat -> e = err
                     end)
  /\ (n <> 0%nat -> hd_error (events r) = Some (EvTransactionReceipt h))
  /\ (n <> 0%nat -> forall rc, TransactionReceipt (env w) (clock w) h = inl rc ->
      Status rc = 1%Z -> outcome r = Normal (Some rc, None))
  /\ (n <> 0%nat -> outcome r <> Normal (None, None)).
Proof.
  revert err w. induction n as [|n IH]; intros err w; cbn [loopGetTxReceipt_from].
  - run_simpl. repeat split; try congruence. exists (None, err). now split.
  - unfold client_TransactionReceipt. rewrite !bind_run. cbn [emit ask outcome final events].
    destruct (TransactionReceipt (env w) (clock w) h) as [rc|e] eqn:Hans.
    + destruct (Z.eqb_spec (Status rc) 1) as [Hst|Hst]; cbn [negb]; run_simpl;
        cbn [app forallb isReceiptEvent hd_error andb]; rewrite bytes_Equal_refl.
      * repeat split; try congruence.
        exists (Some rc, None). now split.
      * repeat split; try congruence.
        exists (None, Some (errors_New "tx with wrong receipt status")).
        split; [reflexivity|]. discriminate.
    + set (w1 := mkWorld _ _ _).
      specialize (IH (Some e) w1). cbn zeta in IH.
      destruct IH as (Hev & Hvars & (res & Hout & Hres) & Hhd & Hfirst & Hnone).
      cbn [app forallb isReceiptEvent hd_error andb]. rewrite bytes_Equal_refl.
      repeat split; try assumption.
      * exists res. split; [assumption|].
        destruct res as [[rc|] [e'|]]; try assumption; intros; lia.
      * intros _ rc Heq. congruence.
      * intros _. destruct n as [|n]; [|now apply Hnone].
        cbn [loopGetTxReceipt_from]. run_simpl. congruence.
Qed.

Lemma checkTxToAddress_run (scanner : ethSwapScanner) (tx : Transaction)
    (c : TokenConfig) (w : World) (to : list byte) :
  To tx = Some to ->
  checkTxToAddress scanner tx c w =
  if toAccepted to c then
    if receiptNeeded scanner to c then
      let f := loopGetTxReceipt (Hash tx) w in
      mkRun (acceptedWith (outcome f)) (final f) (events f)
    else mkRun (Normal (None, true)) w []
  else mkRun (Normal (None, false)) w [].
Proof.
  intro Hto. unfold checkTxToAddress, toAccepted, receiptNeeded, expectedTo, inWhitelist.
  rewrite Hto.
  destruct (IsRouterSwap c), (IsNativeToken c), (String.eqb (CallByContract c) "");
    cbn [negb andb orb];
    match goal with
    | |- context [strings.EqualFold ?a ?b] => destruct (strings.EqualFold a b)
    end;
    cbn [negb andb orb];
    try match goal with
    | |- context [existsb ?f ?l] => destruct (existsb f l)
    end;
    cbn [negb andb orb]; rewrite ?orb_true_r; try reflexivity;
    try (destruct (scanReceipt scanner); cbn [negb andb orb]; try reflexivity).
  all: rewrite bind_run; cbv zeta.
  all: destruct (loopGetTxReceipt_from_run 5 (Hash tx) None w)
         as (_ & _ & (res & Hout & Hres) & _); fold (loopGetTxReceipt (Hash tx) w) in Hout.
  all: rewrite Hout; destruct res as [[rc|] [e|]]; try contradiction;
    run_simpl; rewrite app_nil_r; reflexivity.
Qed.

Lemma postSwapPost_outcome (scanner : ethSwapScanner) (swap : swapPost) (w : World) :
  outcome (postSwapPost scanner swap w) = Normal tt
  \/ outcome (postSwapPost scanner swap w) = Panic TypeAssertion.
Proof.
  destruct (postSwapPost_destinations scanner swap w) as (_ & _ & _ & _ & _ & H).
  destruct (outcome (postSwapPost scanner swap w)) as [[]|k]; [now left|].
  right. now destruct H as [-> _].
Qed.

(** The loop of [verifyAndPostRouterSwapTx].  It offers no rule and fetches
    no receipt.  It dispatches, in order, the router records of the logs it
    posts, all of them when it returns.  When every router log has a first
    topic it returns, unless the dispatcher panics; when some router log has
    no topic it panics. *)
Lemma verifyAndPostRouterSwapTx_loop_run (scanner : ethSwapScanner) (txHash : string)
    (c : TokenConfig) (logs : list Log) (i : nat) (w : World) :
  let r := verifyAndPostRouterSwapTx_loop scanner txHash c logs i w in
  offered (events r) = []
  /\ receiptCalls (events r) = []
  /\ (exists rest,
        map (routerRecord txHash c) (indexesFrom (isPostedRouterLog c) logs i)
        = dispatched (events r) ++ rest
        /\ (outcome r = Normal tt -> rest = []))
  /\ (if routerLogsHaveTopic c logs
      then outcome r = Normal tt \/ outcome r = Panic TypeAssertion
      else outcome r = Panic IndexOutOfRange \/ outcome r = Panic TypeAssertion).
Proof.
  revert i w. induction logs as [|rlog rest IH]; intros i w.
  - cbn. repeat split; auto. exists []. now split.
  - cbn [verifyAndPostRouterSwapTx_loop routerLogsHaveTopic forallb indexesFrom].
    fold (routerLogsHaveTopic c rest).
    unfold isPostedRouterLog at 1, isRouterLog at 1 2.
    destruct (Removed rlog); cbn [negb andb orb app]; [apply IH|].
    destruct (strings.EqualFold (common.Hex (Address rlog)) (RouterContract c));
      cbn [negb andb orb app]; [|apply IH].
    destruct (Topics rlog) as [|logTopic topics]; cbn [nth_error andb].
    + run_simpl. repeat split; auto. cbn [app]. eexists. split; [reflexivity|]. discriminate.
    + destruct (routerTopicAccepted c logTopic); cbn [app]; [|apply IH].
      rewrite bind_run. unfold postRouterSwap. fold (routerRecord txHash c i).
      destruct (postSwapPost_destinations scanner (routerRecord txHash c i) w)
        as (Hd & Ho & Hc & _ & _ & _).
      destruct (postSwapPost_outcome scanner (routerRecord txHash c i) w) as [Hout|Hout];
        rewrite Hout.
      * specialize (IH (S i) (final (postSwapPost scanner (routerRecord txHash c i) w))).
        cbn zeta in IH. destruct IH as (Ho' & Hc' & (rest' & Hd' & Hrest') & Hout').
        cbn [outcome final events map]. split_events.
        rewrite Hd, Ho, Hc, Ho', Hc'. repeat split; auto.
        exists rest'. split; [|assumption]. cbn [app]. now rewrite Hd'.
      * cbn [outcome final events map]. rewrite Hd, Ho, Hc. repeat split; auto.
        -- eexists. split; [reflexivity|]. discriminate.
        -- destruct (routerLogsHaveTopic c rest); now right.
Qed.

(** *** Properties of the events that compose *)

Section Always.

Variable P : list Event -> Prop.
Hypothesis P_nil : P [].
Hypothesis P_app : forall evs evs', P evs -> P evs' -> P (evs ++ evs').

(** Every run of [m] has events that satisfy [P]. *)
Definition always {A : Type} (m : M A) : Prop := forall w, P (events (m w)).

Lemma always_ret {A : Type} (a : A) : always (ret a).
Proof. intro w. exact P_nil. Qed.

Lemma always_lift {A : Type} (o : Outcome A) : always (lift o).
Proof. intro w. exact P_nil. Qed.

Lemma always_panic {A : Type} (k : PanicKind) : always (@panic A k).
Proof. intro w. exact P_nil. Qed.

Lemma always_ask {A : Type} (q : Env -> nat -> A) : always (ask q).
Proof. intro w. exact P_nil. Qed.

Lemma always_getVars : always getVars.
Proof. intro w. exact P_nil. Qed.

Lemma always_emit (ev : Event) : P [ev] -> always (emit ev).
Proof. intros H w. exact H. Qed.

Lemma always_bind {A B : Type} (m : M A) (k : A -> M B) :
  always m -> (forall a, always (k a)) -> always (bind m k).
Proof.
  intros Hm Hk w. rewrite bind_run.
  destruct (outcome (m w)); cbn [events]; [apply P_app; [apply Hm | apply Hk] | apply Hm].
Qed.

End Always.

Definition offersNothing (evs : list Event) : Prop := offered evs = [].

Lemma offersNothing_nil : offersNothing [].
Proof. reflexivity. Qed.

Lemma offersNothing_app (evs evs' : list Event) :
  offersNothing evs -> offersNothing evs' -> offersNothing (evs ++ evs').
Proof. unfold offersNothing. intros H H'. split_events. now rewrite H, H'. Qed.

(** Every record dispatched is the bridge record of the rule. *)
Definition dispatchesBridgeOnly (txid : string) (c : TokenConfig) (evs : list Event) : Prop :=
  Forall (fun s => s = bridgeRecord txid c) (dispatched evs).

Lemma dispatchesBridgeOnly_nil (txid : string) (c : TokenConfig) :
  dispatchesBridgeOnly txid c [].
Proof. constructor. Qed.

Lemma dispatchesBridgeOnly_app (txid : string) (c : TokenConfig) (evs evs' : list Event) :
  dispatchesBridgeOnly txid c evs -> dispatchesBridgeOnly txid c evs' ->
  dispatchesBridgeOnly txid c (evs ++ evs').
Proof.
  unfold dispatchesBridgeOnly. intros H H'. split_events. apply Forall_app. now split.
Qed.

Lemma checkTxToAddress_events (scanner : ethSwapScanner) (tx : Transaction)
    (c : TokenConfig) (w : World) :
  forallb (isReceiptEvent (Hash tx)) (events (checkTxToAddress scanner tx c w)) = true.
Proof.
  destruct (To tx) as [to|] eqn:Hto.
  - rewrite (checkTxToAddress_run scanner tx c w to Hto).
    destruct (toAccepted to c); [|reflexivity].
    destruct (receiptNeeded scanner to c); [|reflexivity].
    cbn [events]. apply (loopGetTxReceipt_from_run 5 (Hash tx) None w).
  - unfold checkTxToAddress. rewrite Hto. reflexivity.
Qed.

Lemma checkTxToAddress_offers (scanner : ethSwapScanner) (tx : Transaction) (c : TokenConfig) :
  always offersNothing (checkTxToAddress scanner tx c).
Proof.
  intro w. apply (isReceiptEvent_silent (Hash tx)), checkTxToAddress_events.
Qed.

Lemma checkTxToAddress_dispatches (txid : string) (c' : TokenConfig)
    (scanner : ethSwapScanner) (tx : Transaction) (c : TokenConfig) :
  always (dispatchesBridgeOnly txid c') (checkTxToAddress scanner tx c).
Proof.
  intro w. unfold dispatchesBridgeOnly.
  destruct (isReceiptEvent_silent (Hash tx) _ (checkTxToAddress_events scanner tx c w))
    as (_ & _ & _ & -> & _). constructor.
Qed.

Lemma postBridgeSwap_offers (scanner : ethSwapScanner) (txid : string) (c : TokenConfig) :
  always offersNothing (postBridgeSwap scanner txid c).
Proof. intro w. apply postSwapPost_destinations. Qed.

Lemma postBridgeSwap_dispatches (scanner : ethSwapScanner) (txid : string) (c : TokenConfig) :
  always (dispatchesBridgeOnly txid c) (postBridgeSwap scanner txid c).
Proof.
  intro w. unfold dispatchesBridgeOnly, postBridgeSwap.
  destruct (postSwapPost_destinations scanner (bridgeRecord txid c) w) as (Hd & _).
  unfold bridgeRecord in *. rewrite Hd. now constructor.
Qed.

Lemma verifyAndPostRouterSwapTx_offers (scanner : ethSwapScanner) (tx : Transaction)
    (receipt : option Receipt) (c : TokenConfig) :
  always offersNothing (verifyAndPostRouterSwapTx scanner tx receipt c).
Proof.
  intro w. destruct receipt as [rc|]; [|reflexivity].
  apply verifyAndPostRouterSwapTx_loop_run.
Qed.

(** Decompose a computation into its binds and branches; [leaf] closes
    the calls for which the property is known. *)
Ltac always_step lemma_nil lemma_app leaf :=
  repeat first
    [ leaf
    | apply always_ret; exact lemma_nil
    | apply always_lift; exact lemma_nil
    | apply always_panic; exact lemma_nil
    | apply always_getVars; exact lemma_nil
    | apply always_bind; [exact lemma_app | | intros ?]
    | match goal with
      | |- always _ (match ?x with _ => _ end) => destruct x
      end ].

(** One offer per call of [verifyTransaction]: the rule it was called with. *)
Lemma verifyTransaction_offered (scanner : ethSwapScanner) (tx : Transaction)
    (c : TokenConfig) (w : World) :
  offered (events (verifyTransaction scanner tx c w)) = [c].
Proof.
  unfold verifyTransaction. rewrite bind_run. cbn [emit outcome final events].
  split_events. cbn [offered flat_map app].
  match goal with
  | |- c :: offered (events (?m w)) = _ =>
      assert (H : always offersNothing m); [|now rewrite (H w)]
  end.
  always_step offersNothing_nil offersNothing_app
    ltac:(first [ apply checkTxToAddress_offers
                | apply postBridgeSwap_offers
                | apply verifyAndPostRouterSwapTx_offers ]).
Qed.

(** A rule that is not a router rule for [IsRouterSwap] dispatches bridge
    records only. *)
Lemma verifyTransaction_bridge_only (scanner : ethSwapScanner) (tx : Transaction)
    (c : TokenConfig) (w : World) :
  IsRouterSwap c = false ->
  dispatchesBridgeOnly (common.Hex (Hash tx)) c (events (verifyTransaction scanner tx c w)).
Proof.
  intro Hrouter. revert w.
  change (always (dispatchesBridgeOnly (common.Hex (Hash tx)) c)
                 (verifyTransaction scanner tx c)).
  unfold verifyTransaction. rewrite Hrouter.
  always_step (dispatchesBridgeOnly_nil (common.Hex (Hash tx)) c)
              (dispatchesBridgeOnly_app (common.Hex (Hash tx)) c)
    ltac:(first [ apply checkTxToAddress_dispatches
                | apply postBridgeSwap_dispatches
                | apply always_emit; constructor ]).
Qed.
(* ================================================================= *)
(** ** Router swaps *)

(** C8.  [verifyAndPostRouterSwapTx] indexes [Topics[0]] of every router
    log (not removed, emitted by the router contract) without a test of the
    length, whatever the kind of the rule.  With a receipt in which every
    router log has a topic the run has no index out of range: it returns,
    unless the dispatcher panics on a malformed answer of the server.  With
    a receipt in which some router log has no topic it never returns: it
    panics at that log, unless the dispatcher has panicked before.  Without
    a receipt it returns at once. *)
Theorem verifyAndPostRouterSwapTx_total (scanner : ethSwapScanner) (tx : Transaction)
    (receipt : option Receipt) (c : TokenConfig) (w : World) :
  let r := verifyAndPostRouterSwapTx scanner tx receipt c w in
  match receipt with
  | None => outcome r = Normal tt
  | Some rc =>
      if routerLogsHaveTopic c (Logs rc)
      then outcome r = Normal tt \/ outcome r = Panic TypeAssertion
      else outcome r = Panic IndexOutOfRange \/ outcome r = Panic TypeAssertion
  end.
Proof.
  destruct receipt as [rc|]; [|reflexivity].
  apply verifyAndPostRouterSwapTx_loop_run.
Qed.

Lemma IsRouterSwapAll_kinds (c : TokenConfig) :
  IsRouterSwapAll c = IsRouterERC20Swap c || IsRouterNFTSwap c || IsRouterAnycallSwap c.
Proof.
  unfold IsRouterSwapAll, IsRouterERC20Swap, IsRouterNFTSwap, IsRouterAnycallSwap.
  destruct (String.eqb (TxType c) TxRouterERC20Swap), (String.eqb (TxType c) TxRouterNFTSwap),
    (String.eqb (TxType c) TxRouterAnycallSwap), (String.eqb (TxType c) TxRouterGas);
    reflexivity.
Qed.

(** For a rule of one of the router kinds the topic test of the code is
    membership in the topic set of the kind. *)
Lemma isPostedRouterLog_topicSet (c : TokenConfig) (l : Log) :
  IsRouterSwapAll c = true -> isPostedRouterLog c l = isRouterSwapLog c l.
Proof.
  rewrite IsRouterSwapAll_kinds. intro Hkind.
  unfold isPostedRouterLog, isRouterSwapLog. f_equal.
  destruct (Topics l) as [|t ts]; [reflexivity|].
  unfold routerTopicAccepted, routerTopicSet.
  destruct (IsRouterERC20Swap c); [cbn; now rewrite orb_false_r, orb_assoc|].
  destruct (IsRouterNFTSwap c); [cbn; now rewrite orb_false_r, orb_assoc|].
  destruct (IsRouterAnycallSwap c); [cbn; now rewrite orb_false_r|].
  discriminate.
Qed.

Lemma indexesFrom_ext (p q : Log -> bool) (logs : list Log) (i : nat) :
  (forall l, p l = q l) -> indexesFrom p logs i = indexesFrom q logs i.
Proof.
  intro H. revert i. induction logs as [|l logs IH]; intro i; [reflexivity|].
  cbn [indexesFrom]. now rewrite H, IH.
Qed.

(** Called with a receipt for a rule of a router kind, and returning,
    [verifyAndPostRouterSwapTx] dispatches one router record per router log
    whose first topic is in the topic set of the kind, with the index of
    that log, in the order of the logs. *)
Lemma verifyAndPostRouterSwapTx_records (scanner : ethSwapScanner) (tx : Transaction)
    (rc : Receipt) (c : TokenConfig) (w : World) :
  IsRouterSwapAll c = true ->
  let r := verifyAndPostRouterSwapTx scanner tx (Some rc) c w in
  outcome r = Normal tt ->
  dispatched (events r) =
  map (routerRecord (common.Hex (Hash tx)) c)
      (indexesFrom (isRouterSwapLog c) (Logs rc) 0).
Proof.
  intros Hkind r Hout. subst r. unfold verifyAndPostRouterSwapTx in *.
  destruct (verifyAndPostRouterSwapTx_loop_run scanner (common.Hex (Hash tx)) c (Logs rc) 0 w)
    as (_ & _ & (rest & Hd & Hrest) & _).
  rewrite (Hrest Hout), app_nil_r in Hd. rewrite <- Hd.
  f_equal. apply indexesFrom_ext. intro l. now apply isPostedRouterLog_topicSet.
Qed.

Lemma IsRouterSwap_nft_anycall (c : TokenConfig) :
  IsRouterNFTSwap c = true \/ IsRouterAnycallSwap c = true -> IsRouterSwap c = false.
Proof.
  unfold IsRouterNFTSwap, IsRouterAnycallSwap, IsRouterSwap.
  intros [H|H]; apply String.eqb_eq in H; rewrite H; reflexivity.
Qed.

(** C2 (what the code does for router-nft and router-anycall rules).
    [verifyTransaction] tests [IsRouterSwap], which holds for router-erc20
    and router-gas rules only: for a router-nft or router-anycall rule it
    takes the bridge branch, and every record it dispatches is the bridge
    record of the rule, without a log index.  It emits no router record,
    whatever the logs of the receipt. *)
Theorem verifyTransaction_nft_anycall_no_router_record (scanner : ethSwapScanner)
    (tx : Transaction) (c : TokenConfig) (w : World) :
  IsRouterNFTSwap c = true \/ IsRouterAnycallSwap c = true ->
  forall s, In s (dispatched (events (verifyTransaction scanner tx c w))) ->
            s = bridgeRecord (common.Hex (Hash tx)) c
            /\ logIndex s = ""
            /\ rpcMethod s <> "swap.RegisterRouterSwap".
Proof.
  intros Hkind s Hin.
  pose proof (verifyTransaction_bridge_only scanner tx c w (IsRouterSwap_nft_anycall c Hkind))
    as Hall.
  unfold dispatchesBridgeOnly in Hall. rewrite Forall_forall in Hall.
  rewrite (Hall s Hin). repeat split.
  unfold bridgeRecord. cbn [rpcMethod].
  destruct (negb (DepositAddress c =? "")); discriminate.
Qed.

(** A router-nft rule and a transaction to its router whose receipt has one
    [NFT721SwapOut] log of the router, at index 0: the rule is offered the
    transaction and no record is dispatched. *)
Lemma verifyTransaction_nft_anycall_no_router_record_witness :
  let w := ex_world ex_nft_receipt [ex_nft_rule] in
  IsRouterNFTSwap ex_nft_rule = true
  /\ indexesFrom (isRouterSwapLog ex_nft_rule) (Logs ex_nft_receipt) 0 = [0%nat]
  /\ offered (events (scanTransaction ex_scanner ex_router_tx w)) = [ex_nft_rule]
  /\ dispatched (events (scanTransaction ex_scanner ex_router_tx w)) = []
  /\ forall s, In s (dispatched (events (verifyTransaction ex_scanner ex_router_tx
                                           ex_nft_rule w))) ->
               rpcMethod s <> "swap.RegisterRouterSwap".
Proof.
  cbv zeta. split; [reflexivity|]. split; [vm_compute; reflexivity|].
  split; [vm_compute; reflexivity|]. split; [vm_compute; reflexivity|].
  intros s Hin.
  apply (verifyTransaction_nft_anycall_no_router_record ex_scanner ex_router_tx
           ex_nft_rule (ex_world ex_nft_receipt [ex_nft_rule]) (or_introl eq_refl) s Hin).
Defined.

(** For a router-erc20 rule the same receipt shape yields its records: the
    two [AnySwapOut] logs at the indexes 3 and 7 are dispatched. *)
Example scanTransaction_router_erc20_example :
  let w := ex_world ex_erc20_router_receipt [ex_erc20_router_rule] in
  dispatched (events (scanTransaction ex_scanner ex_router_tx w))
  = [routerRecord (common.Hex ex_txhash) ex_erc20_router_rule 3;
     routerRecord (common.Hex ex_txhash) ex_erc20_router_rule 7].
Proof. vm_compute. reflexivity. Qed.

Lemma receiptNeeded_router (scanner : ethSwapScanner) (to : list byte) (c : TokenConfig) :
  IsRouterSwap c = true -> receiptNeeded scanner to c = true.
Proof.
  intro H. unfold receiptNeeded. rewrite H.
  destruct (strings.EqualFold _ _); [|reflexivity]. now rewrite orb_true_r.
Qed.

Lemma IsRouterSwap_all (c : TokenConfig) : IsRouterSwap c = true -> IsRouterSwapAll c = true.
Proof.
  rewrite IsRouterSwapAll_kinds. unfold IsRouterSwap, IsRouterERC20Swap. now intros ->.
Qed.

(** For a router-erc20 or router-gas rule that accepts the address of the
    transaction and obtains its receipt, a call of [verifyTransaction] that
    returns has dispatched one router record per router log of the receipt
    whose first topic is in the topic set, with the index of the log. *)
Lemma verifyTransaction_router_records (scanner : ethSwapScanner) (tx : Transaction)
    (c : TokenConfig) (w : World) (to : list byte) (rc : Receipt) :
  IsRouterSwap c = true ->
  To tx = Some to -> toAccepted to c = true ->
  outcome (loopGetTxReceipt (Hash tx) w) = Normal (Some rc, None) ->
  let r := verifyTransaction scanner tx c w in
  (exists err, outcome r = Normal err) ->
  dispatched (events r) =
  map (routerRecord (common.Hex (Hash tx)) c)
      (indexesFrom (isRouterSwapLog c) (Logs rc) 0).
Proof.
  intros Hrouter Hto Hacc Hfetch r [err Hret]. subst r. revert Hret.
  unfold verifyTransaction. rewrite bind_run. cbn [emit outcome final events].
  rewrite bind_run, (checkTxToAddress_run scanner tx c w to Hto), Hacc,
    (receiptNeeded_router scanner to c Hrouter).
  cbv zeta. cbn [outcome final events]. rewrite Hfetch. cbn [acceptedWith negb].
  rewrite Hrouter, bind_run.
  set (f := loopGetTxReceipt (Hash tx) w).
  pose proof (verifyAndPostRouterSwapTx_records scanner tx rc c (final f)
                (IsRouterSwap_all c Hrouter)) as Hrec.
  cbv zeta in Hrec.
  destruct (isReceiptEvent_silent (Hash tx) (events f)) as (_ & _ & _ & Hd & _).
  { apply (loopGetTxReceipt_from_run 5 (Hash tx) None w). }
  destruct (outcome (verifyAndPostRouterSwapTx scanner tx (Some rc) c (final f)))
    as [[]|k]; cbn [outcome final events]; [|discriminate].
  intros _. split_events. rewrite Hd, (Hrec eq_refl). cbn. now rewrite app_nil_r.
Qed.

(* ================================================================= *)
(** ** The address filter and the whitelist *)

(** C3 (amended).  A transaction whose address differs from the expected
    address of the rule and equals, letter case aside, an entry of the
    whitelist.  For a native-token rule the whitelist is not consulted: the
    rule does not apply and no receipt is fetched.  For any other rule the
    address is accepted and the receipt is fetched; the rule applies exactly
    when the fetch returns a receipt, which it does when the chain client
    answers the first attempt with a receipt of status 1. *)
Theorem checkTxToAddress_whitelist (scanner : ethSwapScanner) (tx : Transaction)
    (c : TokenConfig) (w : World) (to : list byte) :
  To tx = Some to ->
  strings.EqualFold (common.Hex to) (expectedTo c) = false ->
  inWhitelist to c = true ->
  let r := checkTxToAddress scanner tx c w in
  let fetch := loopGetTxReceipt (Hash tx) w in
  if IsNativeToken c
  then outcome r = Normal (None, false) /\ events r = []
  else events r = events fetch
       /\ hd_error (receiptCalls (events r)) = Some (Hash tx)
       /\ (forall receipt, outcome fetch = Normal (Some receipt, None) <->
                           outcome r = Normal (Some receipt, true))
       /\ (outcome r = Normal (None, false)
           \/ exists receipt, outcome r = Normal (Some receipt, true))
       /\ (forall receipt,
             TransactionReceipt (env w) (clock w) (Hash tx) = inl receipt ->
             Status receipt = 1%Z ->
             outcome r = Normal (Some receipt, true)).
Proof.
  intros Hto Hexp Hwl r fetch. subst r.
  rewrite (checkTxToAddress_run scanner tx c w to Hto).
  unfold toAccepted, receiptNeeded. rewrite Hexp, Hwl.
  destruct (IsNativeToken c); cbn [negb andb orb]; [now split|].
  cbv zeta. fold fetch. cbn [outcome final events].
  destruct (loopGetTxReceipt_from_run 5 (Hash tx) None w)
    as (_ & _ & (res & Hout & Hres) & Hhd & Hfirst & Hnone).
  fold (loopGetTxReceipt (Hash tx) w) in Hout, Hhd, Hfirst, Hnone. fold fetch in Hout, Hhd, Hfirst, Hnone.
  split; [reflexivity|]. split.
  { specialize (Hhd ltac:(discriminate)).
    destruct (events fetch) as [|ev evs]; [discriminate|].
    injection Hhd as ->. reflexivity. }
  rewrite Hout. destruct res as [[rc|] [e|]]; try contradiction; cbn [acceptedWith].
  - repeat split.
    + intro H. injection H as ->. reflexivity.
    + intro H. injection H as ->. reflexivity.
    + right. now exists rc.
    + intros receipt Hans Hst. specialize (Hfirst ltac:(discriminate) receipt Hans Hst).
      congruence.
  - repeat split; try discriminate.
    + now left.
    + intros receipt Hans Hst. specialize (Hfirst ltac:(discriminate) receipt Hans Hst).
      congruence.
  - exfalso. apply Hnone; [discriminate|assumption].
Qed.

(** The swapin rule of the token with the router whitelisted, and a
    transaction to the router: the receipt is fetched and the rule applies. *)
Lemma checkTxToAddress_whitelist_witness :
  let w := ex_world ex_transfer_receipt [] in
  let r := checkTxToAddress ex_scanner ex_router_tx ex_swapin_rule_whitelist w in
  receiptCalls (events r) = [ex_txhash]
  /\ outcome r = Normal (Some ex_transfer_receipt, true).
Proof.
  pose proof (checkTxToAddress_whitelist ex_scanner ex_router_tx ex_swapin_rule_whitelist
                (ex_world ex_transfer_receipt []) ex_router eq_refl eq_refl eq_refl) as H.
  cbv zeta in H. change (IsNativeToken ex_swapin_rule_whitelist) with false in H.
  destruct H as (_ & _ & _ & _ & Hfirst).
  cbv zeta. split; [vm_compute; reflexivity|].
  exact (Hfirst ex_transfer_receipt eq_refl eq_refl).
Defined.

(** C3 (as stated) fails for a native-token rule: the address of the
    transaction is in the whitelist and differs from the deposit address,
    yet the rule does not apply and no receipt is fetched. *)
Lemma checkTxToAddress_native_ignores_whitelist :
  let c := ex_native_rule "ETH" ["0x6b7a87899490EcE95443e979cA9485CBE7E71522"] in
  let r := checkTxToAddress ex_scanner ex_router_tx c (ex_world ex_transfer_receipt []) in
  Whitelist c <> []
  /\ strings.EqualFold (common.Hex ex_router) (expectedTo c) = false
  /\ inWhitelist ex_router c = true
  /\ outcome r = Normal (None, false)
  /\ receiptCalls (events r) = []
  /\ ~ (exists receipt, outcome r = Normal (receipt, true) /\ receiptCalls (events r) <> []).
Proof.
  cbv zeta. split; [discriminate|]. split; [vm_compute; reflexivity|].
  split; [vm_compute; reflexivity|]. split; [vm_compute; reflexivity|].
  split; [vm_compute; reflexivity|].
  intros [receipt [Hout _]]. vm_compute in Hout. discriminate Hout.
Qed.

(* ================================================================= *)
(** ** Scanning a transaction *)

(** The loop over the rules offers the transaction to the rules in order,
    to all of them when it returns. *)
Lemma scanTransaction_loop_offered (scanner : ethSwapScanner) (tx : Transaction)
    (tokens : list TokenConfig) (w : World) :
  let r := scanTransaction_loop scanner tx tokens w in
  (exists rest, tokens = offered (events r) ++ rest)
  /\ (outcome r = Normal tt -> offered (events r) = tokens).
Proof.
  revert w. induction tokens as [|c rest IH]; intro w; cbn [scanTransaction_loop].
  - split; [now exists []|reflexivity].
  - rewrite bind_run.
    pose proof (verifyTransaction_offered scanner tx c w) as Hc.
    destruct (outcome (verifyTransaction scanner tx c w)) as [err|k].
    + specialize (IH (final (verifyTransaction scanner tx c w))). cbn zeta in IH.
      destruct IH as [[rest' Hrest] Hall].
      cbn [outcome final events]. split_events. rewrite Hc. cbn [app]. split.
      * exists rest'. now rewrite <- Hrest.
      * intro Hret. now rewrite (Hall Hret).
    + cbn [outcome final events]. rewrite Hc. split; [now exists rest|discriminate].
Qed.

(** C4 (amended).  A transaction with a to-address is offered to the
    configured rules in their order, and to every one of them when
    [scanTransaction] returns, whether or not an earlier rule matched; the
    offers stop early only when the verification of a rule panics. *)
Theorem scanTransaction_offers_every_rule (scanner : ethSwapScanner) (tx : Transaction)
    (w : World) (to : list byte) :
  To tx = Some to ->
  let r := scanTransaction scanner tx w in
  (exists rest, Tokens (vars w) = offered (events r) ++ rest)
  /\ (outcome r = Normal tt -> offered (events r) = Tokens (vars w)).
Proof.
  intros Hto r. subst r. unfold scanTransaction. rewrite Hto, bind_run.
  cbn [getVars outcome final events app].
  pose proof (scanTransaction_loop_offered scanner tx (Tokens (vars w)) w) as H.
  cbv zeta in H. destruct (scanTransaction_loop scanner tx (Tokens (vars w)) w) as [o fw evs].
  exact H.
Qed.

(** Two native-token rules with the same deposit address: both are offered
    the transaction and both register it. *)
Lemma scanTransaction_offers_every_rule_witness :
  let rules := [ex_native_rule "ETH" []; ex_native_rule "ETHv2" []] in
  let r := scanTransaction ex_scanner ex_deposit_tx (ex_world ex_transfer_receipt rules) in
  outcome r = Normal tt /\ offered (events r) = rules.
Proof.
  cbv zeta. split; [vm_compute; reflexivity|].
  apply (proj2 (scanTransaction_offers_every_rule ex_scanner ex_deposit_tx
                  (ex_world ex_transfer_receipt
                     [ex_native_rule "ETH" []; ex_native_rule "ETHv2" []])
                  ex_deposit eq_refl)).
  vm_compute. reflexivity.
Defined.

(** C4 (as stated) fails: the first rule matches and its record reaches the
    dispatcher, and the transaction is then offered to the second rule,
    which registers it again. *)
Lemma scanTransaction_continues_after_match :
  let ruleA := ex_native_rule "ETH" [] in
  let ruleB := ex_native_rule "ETHv2" [] in
  let r := scanTransaction ex_scanner ex_deposit_tx
             (ex_world ex_transfer_receipt [ruleA; ruleB]) in
  offered (events r) = [ruleA; ruleB]
  /\ dispatched (events r) = [bridgeRecord (common.Hex ex_txhash) ruleA;
                              bridgeRecord (common.Hex ex_txhash) ruleB]
  /\ ~ noOfferAfterDispatch (events r).
Proof.
  cbv zeta. split; [vm_compute; reflexivity|]. split; [vm_compute; reflexivity|].
  intro H.
  set (evs := events (scanTransaction ex_scanner ex_deposit_tx
                        (ex_world ex_transfer_receipt
                           [ex_native_rule "ETH" []; ex_native_rule "ETHv2" []]))) in H.
  specialize (H (firstn 1 evs) (bridgeRecord (common.Hex ex_txhash) (ex_native_rule "ETH" []))
                (skipn 2 evs)).
  assert (Hsplit : evs = firstn 1 evs
                         ++ EvPostSwapPost (bridgeRecord (common.Hex ex_txhash)
                                              (ex_native_rule "ETH" []))
                         :: skipn 2 evs) by (vm_compute; reflexivity).
  specialize (H Hsplit). clear Hsplit. vm_compute in H. discriminate H.
Qed.

(** C10.  A contract creation (no to-address) leaves [scanTransaction] at
    once: the transaction is offered to no rule, no receipt is fetched, no
    record reaches the dispatcher, and nothing else happens either. *)
Theorem scanTransaction_contract_creation (scanner : ethSwapScanner)
    (txHash input : list byte) (w : World) :
  let r := scanTransaction scanner (mkTransaction None txHash input) w in
  outcome r = Normal tt
  /\ final r = w
  /\ offered (events r) = []
  /\ receiptCalls (events r) = []
  /\ dispatched (events r) = []
  /\ events r = [].
Proof. now repeat split. Qed.
